(** * Navigation controller of the blog: hamburger toggle and dropdown group

    A shallow embedding of the page script (the two [initialise...]
    functions and the click handlers they register) over a small model of
    the DOM, together with the properties of the handlers.

    The document is a list of elements in document order; a node reference
    is the position of its element.  The script never creates or removes
    nodes and never changes an id or an attribute: it only edits class
    lists, so positions are stable node identities.

    Scope of the DOM model:
    - a selector is either [#ident] or [.ident], which is all the script
      uses; for a CSS identifier [v], [#v] selects by id equality (ids
      compare by case, as they do in a document with a doctype);
    - a listener runs for clicks whose target is the node it was bound to
      (no trigger is nested inside another trigger).

    The selectors the script writes out are identifiers.  The two selectors
    it builds from an [aria-controls] value are identifiers exactly when the
    value is one: every statement below that depends on what such a
    selector finds carries the hypothesis [cssIdent] on the value (or
    [validControls] when the attribute may be missing), outside of which
    the browser parses the selector by the rules of CSS, may throw a
    [SyntaxError], and the model says nothing.  Statements about runs of
    handlers, rather than clicks, hold whichever handlers a click reaches. *)

From Stdlib Require Import Ascii.
From stdpp Require Import base tactics option list sets strings.

Set Default Proof Using "Type".
#[local] Set Warnings "-clear-no-such-hyp".

(** ** Strings *)

Module JsString.

Fixpoint drop (n : nat) (s : string) : string :=
  match n, s with
  | S k, String _ r => drop k r
  | _, _ => s
  end.

(** [String.prototype.replace] with a string pattern and a replacement
    that holds no [$]: the first occurrence of [pattern], scanning from
    the left, is replaced; a string without occurrence is returned as it
    is. *)
Fixpoint replace (pattern replacement s : string) : string :=
  if String.prefix pattern s
  then replacement +:+ drop (String.length pattern) s
  else match s with
       | EmptyString => EmptyString
       | String c r => String c (replace pattern replacement r)
       end.

(** [s.includes(pattern)] *)
Fixpoint includes (pattern s : string) : bool :=
  if String.prefix pattern s then true
  else match s with
       | EmptyString => false
       | String _ r => includes pattern r
       end.

(** Conversion performed by a template literal: [null] prints as
    ["null"]. *)
Definition template (v : option string) : string :=
  match v with Some s => s | None => "null" end.

End JsString.

(** ** CSS identifiers *)

(** An ASCII letter or an underscore: what a CSS identifier may start
    with. *)
Definition isNameStart (a : ascii) : bool :=
  let n := nat_of_ascii a in
  ((65 <=? n) && (n <=? 90)) || ((97 <=? n) && (n <=? 122)) || (n =? 95).

(** A letter, an underscore, a digit or a hyphen. *)
Definition isNameChar (a : ascii) : bool :=
  let n := nat_of_ascii a in
  isNameStart a || ((48 <=? n) && (n <=? 57)) || (n =? 45).

Fixpoint allNameChars (s : string) : bool :=
  match s with
  | EmptyString => true
  | String a r => isNameChar a && allNameChars r
  end.

(** The start of an identifier: a letter or underscore, or a hyphen
    followed by one. *)
Definition identStart (s : string) : bool :=
  match s with
  | EmptyString => false
  | String a r =>
      isNameStart a
      || ((nat_of_ascii a =? 45)
          && match r with
             | String b _ => isNameStart b
             | EmptyString => false
             end)
  end.

(** [cssIdent v]: [v] is an ASCII CSS identifier without escapes, so that
    the selector [#v] is valid and selects, in a document in no-quirks
    mode, the first element whose id is [v].  The empty string, a string
    starting with a digit, and strings holding a dot, a comma, a colon or a
    space are not identifiers. *)
Definition cssIdent (v : string) : bool :=
  identStart v && allNameChars v.

(** The selector the handler builds from the attribute is an id selector:
    the attribute is missing (the selector is [#null]) or its value is an
    identifier. *)
Definition validControls (controls : option string) : bool :=
  match controls with
  | Some c => cssIdent c
  | None => true
  end.

(** ** The document *)

(** A node reference. *)
Abbreviation Node := nat.

Record Element := mkElement {
  el_id : option string;          (* the id attribute *)
  classList : list string;        (* the tokens of the class attribute *)
  aria_controls : option string   (* the aria-controls attribute *)
}.

Module DOMTokenList.

Definition contains (tok : string) (l : list string) : bool :=
  bool_decide (tok ∈ l).

Definition remove (tok : string) (l : list string) : list string :=
  filter (λ t, t ≠ tok) l.

Definition add (tok : string) (l : list string) : list string :=
  if contains tok l then l else l ++ [tok].

Definition toggle (tok : string) (l : list string) : list string :=
  if contains tok l then remove tok l else add tok l.

End DOMTokenList.

Definition set_classList (f : list string → list string) (e : Element) : Element :=
  {| el_id := el_id e; classList := f (classList e);
     aria_controls := aria_controls e |}.

(** Does node [n] bear the class token [tok]? *)
Definition hasToken (els : list Element) (n : Node) (tok : string) : bool :=
  match els !! n with
  | Some e => DOMTokenList.contains tok (classList e)
  | None => false
  end.

(** Selector matching, for the two selector shapes of the script. *)
Definition matchesElement (sel : string) (e : Element) : bool :=
  match sel with
  | String "#"%char i => bool_decide (el_id e = Some i)
  | String "."%char c => DOMTokenList.contains c (classList e)
  | _ => false
  end.

Definition matchesNode (sel : string) (els : list Element) (n : Node) : bool :=
  match els !! n with
  | Some e => matchesElement sel e
  | None => false
  end.

(** All matching nodes, in document order. *)
Definition select (sel : string) (els : list Element) : list Node :=
  filter (λ n, matchesNode sel els n = true) (seq 0 (length els)).

(** ** Pages, completions and the handler monad *)

Inductive JsError := TypeError.

Inductive Completion (A : Type) :=
| Normal (a : A)
| Throw (e : JsError).
Arguments Normal {A} a.
Arguments Throw {A} e.

(** The closures the script binds: the hamburger handler (it captures
    nothing, [hamburgerButton] being a global), and one dropdown handler per
    trigger, capturing the trigger and the two node lists of
    [initialiseDropdown]. *)
Inductive Listener :=
| hamburgerListener
| dropdownListener (dropdownButton : Node)
                   (allDropdownItems dropdownIcons : list Node).

(** The calls the script makes on the DOM, as they happen. *)
Inductive DomCall :=
| CallQuerySelector (sel : string)
| CallQuerySelectorAll (sel : string)
| CallGetAttribute (n : Node) (name : string)
| CallContains (n : Node) (tok : string)
| CallRemove (n : Node) (tok : string)
| CallToggle (n : Node) (tok : string)
| CallAddEventListener (n : Node) (event : string).

(** The state of the page.  [hamburgerButton] is the variable the script
    assigns without declaring it: a property of the global object, shared by
    initialisation and handler. *)
Record Page := mkPage {
  elements : list Element;
  hamburgerButton : option Node;         (* the implicit global; [None] is null *)
  listeners : list (Node * Listener);    (* click listeners, in binding order *)
  calls : list DomCall                   (* the DOM calls made so far *)
}.

Definition set_elements (f : list Element → list Element) (p : Page) : Page :=
  {| elements := f (elements p); hamburgerButton := hamburgerButton p;
     listeners := listeners p; calls := calls p |}.

Definition record (c : DomCall) (p : Page) : Page :=
  {| elements := elements p; hamburgerButton := hamburgerButton p;
     listeners := listeners p; calls := calls p ++ [c] |}.

Definition M (A : Type) : Type := Page → Completion A * Page.

Definition ret {A} (a : A) : M A := λ p, (Normal a, p).

Definition throw {A} (e : JsError) : M A := λ p, (Throw e, p).

Definition bind {A B} (m : M A) (k : A → M B) : M B :=
  λ p, match m p with
       | (Normal a, p') => k a p'
       | (Throw e, p') => (Throw e, p')
       end.

Notation "'let*' x ':=' m 'in' k" := (bind m (λ x, k))
  (at level 10, x binder, m at level 100, k at level 200,
   format "'[v' 'let*'  x  ':='  m  'in' '/' k ']'").
Notation "m '>>' k" := (bind m (λ _, k))
  (at level 100, k at level 200, right associativity).

(** [list.forEach(f)]: the first throw ends the loop. *)
Fixpoint forEach {A} (l : list A) (f : A → M unit) : M unit :=
  match l with
  | [] => ret tt
  | x :: r => f x >> forEach r f
  end.

(** Reading a property of [null] throws. *)
Definition deref {A} (v : option A) : M A :=
  match v with
  | Some a => ret a
  | None => throw TypeError
  end.

Module document.

Definition querySelector (sel : string) : M (option Node) :=
  λ p, (Normal (head (select sel (elements p))),
        record (CallQuerySelector sel) p).

Definition querySelectorAll (sel : string) : M (list Node) :=
  λ p, (Normal (select sel (elements p)),
        record (CallQuerySelectorAll sel) p).

End document.

Definition getAttribute_aria_controls (n : Node) : M (option string) :=
  λ p, (Normal (elements p !! n ≫= aria_controls),
        record (CallGetAttribute n "aria-controls") p).

Module classList_of.

Definition contains (n : Node) (tok : string) : M bool :=
  λ p, (Normal (hasToken (elements p) n tok), record (CallContains n tok) p).

Definition remove (n : Node) (tok : string) : M unit :=
  λ p, (Normal tt,
        record (CallRemove n tok)
          (set_elements (alter (set_classList (DOMTokenList.remove tok)) n) p)).

Definition toggle (n : Node) (tok : string) : M bool :=
  λ p, (Normal (negb (hasToken (elements p) n tok)),
        record (CallToggle n tok)
          (set_elements (alter (set_classList (DOMTokenList.toggle tok)) n) p)).

End classList_of.

Definition addEventListener (n : Node) (event : string) (l : Listener) : M unit :=
  λ p, (Normal tt,
        record (CallAddEventListener n event)
          {| elements := elements p; hamburgerButton := hamburgerButton p;
             listeners := listeners p ++ [(n, l)]; calls := calls p |}).

Definition assign_hamburgerButton (v : option Node) : M unit :=
  λ p, (Normal tt,
        {| elements := elements p; hamburgerButton := v;
           listeners := listeners p; calls := calls p |}).

Definition read_hamburgerButton : M (option Node) :=
  λ p, (Normal (hamburgerButton p), p).

(** ** The script *)

(** The click handler bound by [initialiseHamburger]. *)
Definition hamburgerClick : M unit :=
  let* siteNavItems := document.querySelector "#site-nav-items" in
  let* panel := deref siteNavItems in
  classList_of.toggle panel "site-nav__items--open" >>
  let* hamburgerButton := read_hamburgerButton in
  let* button := deref hamburgerButton in
  classList_of.toggle button "hamburger--open" >>
  ret tt.

Definition initialiseHamburger : M unit :=
  let* found := document.querySelector "#hamburger-button" in
  assign_hamburgerButton found >>
  let* button := deref found in
  addEventListener button "click" hamburgerListener.

(** The loop body shared by the two sibling-closing loops:
    [if (x != target && x.classList.contains(tok)) x.classList.remove(tok)]. *)
Definition closeUnlessTarget (target : option Node) (tok : string) (x : Node) : M unit :=
  if bool_decide (Some x = target) then ret tt
  else
    let* isOpen := classList_of.contains x tok in
    if isOpen then classList_of.remove x tok else ret tt.

(** The click handler bound by [initialiseDropdown] to [dropdownButton]. *)
Definition dropdownClick (dropdownButton : Node)
    (allDropdownItems dropdownIcons : list Node) : M unit :=
  let* controls := getAttribute_aria_controls dropdownButton in
  let* dropdownItems := document.querySelector ("#" +:+ JsString.template controls) in
  forEach allDropdownItems (closeUnlessTarget dropdownItems "dropdown__items--open") >>
  let* panel := deref dropdownItems in
  classList_of.toggle panel "dropdown__items--open" >>
  let* value := deref controls in
  let* dropdownIcon :=
    document.querySelector ("#" +:+ JsString.replace "items" "expand" value) in
  forEach dropdownIcons (closeUnlessTarget dropdownIcon "dropdown__expand--open") >>
  let* icon := deref dropdownIcon in
  classList_of.toggle icon "dropdown__expand--open" >>
  ret tt.

Definition initialiseDropdown : M unit :=
  let* dropdownButtons := document.querySelectorAll ".dropdown__button" in
  let* allDropdownItems := document.querySelectorAll ".dropdown__items" in
  let* dropdownIcons := document.querySelectorAll ".dropdown__expand" in
  forEach dropdownButtons (λ dropdownButton,
    addEventListener dropdownButton "click"
      (dropdownListener dropdownButton allDropdownItems dropdownIcons)).

(** The script, top to bottom: a throw in the first call ends it. *)
Definition script : M unit :=
  initialiseHamburger >> initialiseDropdown.

(** ** Events *)

Definition runListener (l : Listener) : M unit :=
  match l with
  | hamburgerListener => hamburgerClick
  | dropdownListener b panels icons => dropdownClick b panels icons
  end.

(** A click on [target] runs the listeners bound to it, in binding order; an
    exception thrown by one is reported and the next one still runs. *)
Definition click (target : Node) (p : Page) : Page :=
  foldl (λ q l, (runListener l q).2) p
        (filter (λ nl, nl.1 = target) (listeners p)).*2.

Definition clicks (targets : list Node) (p : Page) : Page :=
  foldl (λ q t, click t q) p targets.

(** The page as loaded, before the script runs. *)
Definition load (els : list Element) : Page :=
  {| elements := els; hamburgerButton := None; listeners := []; calls := [] |}.

(** ** Observations *)

Definition navPanelOpen (p : Page) : bool :=
  match head (select "#site-nav-items" (elements p)) with
  | Some n => hasToken (elements p) n "site-nav__items--open"
  | None => false
  end.

Definition hamburgerIconOpen (p : Page) : bool :=
  match hamburgerButton p with
  | Some n => hasToken (elements p) n "hamburger--open"
  | None => false
  end.

Definition panelOpen (p : Page) (n : Node) : bool :=
  hasToken (elements p) n "dropdown__items--open".

Definition iconOpen (p : Page) (n : Node) : bool :=
  hasToken (elements p) n "dropdown__expand--open".

(** ** A sample document: three dropdown items A, B, C *)

Definition el (i : string) (cls : list string) (ctl : option string) : Element :=
  {| el_id := Some i; classList := cls; aria_controls := ctl |}.

Definition sampleDoc : list Element :=
  [ el "hamburger-button" ["hamburger"] None;
    el "site-nav-items" ["site-nav__items"] None;
    el "a-dropdown-button" ["dropdown__button"] (Some "a-dropdown-items");
    el "a-dropdown-expand" ["dropdown__expand"] None;
    el "a-dropdown-items" ["dropdown__items"] None;
    el "b-dropdown-button" ["dropdown__button"] (Some "b-dropdown-items");
    el "b-dropdown-expand" ["dropdown__expand"] None;
    el "b-dropdown-items" ["dropdown__items"] None;
    el "c-dropdown-button" ["dropdown__button"] (Some "c-dropdown-items");
    el "c-dropdown-expand" ["dropdown__expand"] None;
    el "c-dropdown-items" ["dropdown__items"] None ].

Definition samplePage : Page := (script (load sampleDoc)).2.

(** ** Frames, resolution, contracts and call orders *)

(** [edits toks p p']: page [p'] is page [p] up to the presence of the class
    tokens [toks]; ids, attributes, the global and the listeners are kept. *)
Record edits (toks : list string) (p p' : Page) : Prop := mkEdits {
  edits_button : hamburgerButton p' = hamburgerButton p;
  edits_listeners : listeners p' = listeners p;
  edits_ids : el_id <$> elements p' = el_id <$> elements p;
  edits_attrs : aria_controls <$> elements p' = aria_controls <$> elements p;
  edits_tokens : ∀ n tok,
    tok ∉ toks → hasToken (elements p') n tok = hasToken (elements p) n tok
}.

(** A computation that only edits the tokens [toks], whatever its
    completion. *)
Definition frames {A} (toks : list string) (m : M A) : Prop :=
  ∀ p, edits toks p (m p).2.

(** Selectors whose answer cannot depend on the tokens [toks]. *)
Definition stableSelector (toks : list string) (sel : string) : Prop :=
  match sel with
  | String "."%char c => c ∉ toks
  | _ => True
  end.

(** The calls of one sibling-closing loop over [l], from the class state
    [els] it starts in: a [contains] per node other than the target, and a
    [remove] where it answered [true]. *)
Definition closeCalls (target : option Node) (tok : string)
    (els : list Element) (l : list Node) : list DomCall :=
  x ← filter (λ x, Some x ≠ target) l;
  CallContains x tok :: (if hasToken els x tok then [CallRemove x tok] else []).

(** The value of the association attribute of trigger [b]. *)
Definition controlsOf (p : Page) (b : Node) : option string :=
  elements p !! b ≫= aria_controls.

(** The panel the handler of [b] looks up: the first element whose id is
    the attribute value. *)
Definition panelOf (p : Page) (b : Node) : option Node :=
  head (select ("#" +:+ JsString.template (controlsOf p b)) (elements p)).

(** The icon the handler of [b] looks up. *)
Definition iconOf (p : Page) (b : Node) : option Node :=
  value ← controlsOf p b;
  head (select ("#" +:+ JsString.replace "items" "expand" value) (elements p)).

(** The second half of the handler: from [controls.replace] on. *)
Definition iconPhase (controls : option string) (dropdownIcons : list Node) : M unit :=
  let* value := deref controls in
  let* dropdownIcon :=
    document.querySelector ("#" +:+ JsString.replace "items" "expand" value) in
  forEach dropdownIcons (closeUnlessTarget dropdownIcon "dropdown__expand--open") >>
  let* icon := deref dropdownIcon in
  classList_of.toggle icon "dropdown__expand--open" >>
  ret tt.

(** The first half: up to the flip of the panel. *)
Definition panelPhase (dropdownButton : Node) (allDropdownItems : list Node)
    : M (option string) :=
  let* controls := getAttribute_aria_controls dropdownButton in
  let* dropdownItems := document.querySelector ("#" +:+ JsString.template controls) in
  forEach allDropdownItems (closeUnlessTarget dropdownItems "dropdown__items--open") >>
  let* panel := deref dropdownItems in
  classList_of.toggle panel "dropdown__items--open" >>
  ret controls.

(** The panel the hamburger handler looks up. *)
Definition navPanelOf (p : Page) : option Node :=
  head (select "#site-nav-items" (elements p)).

(** The trigger the global holds, when it is a node of the document. *)
Definition buttonBound (p : Page) : bool :=
  match hamburgerButton p with
  | Some n => bool_decide (n < length (elements p))
  | None => false
  end.

(** The page once the script has run on the document [els]. *)
Definition boot (els : list Element) : Page := (script (load els)).2.

(** The four tokens the handlers flip. *)
Definition openTokens : list string :=
  ["site-nav__items--open"; "hamburger--open";
   "dropdown__items--open"; "dropdown__expand--open"].

(** The panels of [group] that are open on page [p]. *)
Definition openPanels (p : Page) (group : list Node) : list Node :=
  filter (λ n, panelOpen p n = true) group.

(** Every panel of the document starts closed. *)
Definition panelsClosed (els : list Element) : bool :=
  forallb (λ n, negb (hasToken els n "dropdown__items--open"))
          (select ".dropdown__items" els).

(** Every icon of the document starts closed. *)
Definition iconsClosed (els : list Element) : bool :=
  forallb (λ n, negb (hasToken els n "dropdown__expand--open"))
          (select ".dropdown__expand" els).

(** The association attribute of every trigger resolves to a panel of the
    group. *)
Definition panelsResolve (els : list Element) : bool :=
  forallb (λ b, match panelOf (load els) b with
                | Some pn => bool_decide (pn ∈ select ".dropdown__items" els)
                | None => false
                end)
          (select ".dropdown__button" els).

(** The naming convention of the icons, in the words of the interface
    table: the icon id is the panel id with the substring [items] replaced
    by [expand]. *)
Definition iconIdConvention (panelId iconId : string) : Prop :=
  ∃ pre post,
    panelId = pre +:+ "items" +:+ post ∧ iconId = pre +:+ "expand" +:+ post.

(** Trigger [b] carries an attribute naming a panel of the group, the
    attribute value is an identifier that holds [items], and the icon id
    derived from it names an icon of the document. *)
Definition itemResolves (els : list Element) (b : Node) : bool :=
  match controlsOf (load els) b, panelOf (load els) b, iconOf (load els) b with
  | Some c, Some pn, Some ic =>
      cssIdent c
      && JsString.includes "items" c
      && bool_decide (pn ∈ select ".dropdown__items" els)
      && bool_decide (ic ∈ select ".dropdown__expand" els)
  | _, _, _ => false
  end.

(** Two different triggers have different panels and different icons. *)
Definition itemsDistinct (els : list Element) : bool :=
  forallb (λ b,
    forallb (λ b',
      bool_decide (b = b')
      || (bool_decide (panelOf (load els) b ≠ panelOf (load els) b')
          && bool_decide (iconOf (load els) b ≠ iconOf (load els) b')))
      (select ".dropdown__button" els))
    (select ".dropdown__button" els).

(** The contract of the markup for the dropdown group. *)
Definition dropdownContract (els : list Element) : bool :=
  forallb (itemResolves els) (select ".dropdown__button" els)
  && itemsDistinct els && panelsClosed els && iconsClosed els.

(** The DOM calls a computation makes when run on page [p]. *)
Definition callsDuring {A} (m : M A) (p : Page) : list DomCall :=
  drop (length (calls p)) (calls (m p).2).

Definition isClose (c : DomCall) : bool :=
  match c with CallRemove _ _ => true | _ => false end.

Definition isFlip (c : DomCall) : bool :=
  match c with CallToggle _ _ => true | _ => false end.

(** The order of steps 2 to 5 as the specification lists them: no sibling
    is closed once a target has been flipped. *)
Fixpoint closingBeforeFlips (cs : list DomCall) : bool :=
  match cs with
  | [] => true
  | c :: r =>
      (if isFlip c then negb (existsb isClose r) else true)
      && closingBeforeFlips r
  end.

(** The per-click algorithm with its steps in the order the specification
    lists them: resolve the panel and the icon (step 1), close the other
    open panels (2), close the other open icons (3), flip the panel (4),
    flip the icon (5).  It is compared with [dropdownClick] below. *)
Definition listedOrderClick (dropdownButton : Node)
    (allDropdownItems dropdownIcons : list Node) : M unit :=
  let* controls := getAttribute_aria_controls dropdownButton in
  let* dropdownItems := document.querySelector ("#" +:+ JsString.template controls) in
  let* value := deref controls in
  let* dropdownIcon :=
    document.querySelector ("#" +:+ JsString.replace "items" "expand" value) in
  forEach allDropdownItems (closeUnlessTarget dropdownItems "dropdown__items--open") >>
  forEach dropdownIcons (closeUnlessTarget dropdownIcon "dropdown__expand--open") >>
  let* panel := deref dropdownItems in
  classList_of.toggle panel "dropdown__items--open" >>
  let* icon := deref dropdownIcon in
  classList_of.toggle icon "dropdown__expand--open" >>
  ret tt.

(** Documents used as concrete inputs. *)

(** Item A is rendered with its panel open and its icon closed. *)
Definition panelOpenDoc : list Element :=
  [ el "hamburger-button" ["hamburger"] None;
    el "site-nav-items" ["site-nav__items"] None;
    el "a-dropdown-button" ["dropdown__button"] (Some "a-dropdown-items");
    el "a-dropdown-expand" ["dropdown__expand"] None;
    el "a-dropdown-items" ["dropdown__items"; "dropdown__items--open"] None;
    el "b-dropdown-button" ["dropdown__button"] (Some "b-dropdown-items");
    el "b-dropdown-expand" ["dropdown__expand"] None;
    el "b-dropdown-items" ["dropdown__items"] None ].

(** Two items whose panel ids both hold [items] and whose icon ids
    coincide after the replacement. *)
Definition sharedIconDoc : list Element :=
  [ el "hamburger-button" ["hamburger"] None;
    el "site-nav-items" ["site-nav__items"] None;
    el "one-button" ["dropdown__button"] (Some "items-expand");
    el "two-button" ["dropdown__button"] (Some "expand-items");
    el "expand-expand" ["dropdown__expand"] None;
    el "items-expand" ["dropdown__items"] None;
    el "expand-items" ["dropdown__items"] None ].

(** A page with the hamburger trigger and no navigation panel. *)
Definition noPanelDoc : list Element :=
  [ el "hamburger-button" ["hamburger"] None ].

(** The invariant: the icon of every trigger is open exactly when its
    panel is. *)
Definition inStep (els : list Element) (q : Page) : Prop :=
  ∀ b pn ic, b ∈ select ".dropdown__button" els →
    panelOf (load els) b = Some pn → iconOf (load els) b = Some ic →
    iconOpen q ic = panelOpen q pn.

(** ** The dropdown group as a state machine *)

(** The accordion over triggers: the state is the trigger whose item is
    open, if any; a click on that trigger closes it, a click on another
    trigger makes that one the open item. *)
Definition accordionStep (open : option Node) (b : Node) : option Node :=
  if bool_decide (open = Some b) then None else Some b.

(** ** The script of [src/_assets/js/index.js]

    The earlier script: the same [initialiseHamburger], and a toggle for the
    single dropdown item [problems-dropdown]. *)

Module IndexJs.

(** The click handler bound by [initialiseDropdown]. *)
Definition dropdownClick : M unit :=
  let* dropdownItems := document.querySelector "#problems-dropdown-items" in
  let* panel := deref dropdownItems in
  classList_of.toggle panel "dropdown__items--open" >>
  let* dropdownIcon := document.querySelector "#problems-dropdown-expand" in
  let* icon := deref dropdownIcon in
  classList_of.toggle icon "dropdown__expand--open" >>
  ret tt.

(** The state of this script: the page, the second variable it assigns
    without declaring it, and the nodes its dropdown handler is bound to
    (the hamburger handler is among the listeners of the page). *)
Record Script := mkScript {
  page : Page;
  dropdownButton : option Node;
  dropdownBound : list Node
}.

Definition initialiseDropdown (s : Script) : Completion unit * Script :=
  match document.querySelector "#problems-dropdown-button" (page s) with
  | (Normal found, p1) =>
      match found with
      | Some button =>
          (Normal tt,
           {| page := record (CallAddEventListener button "click") p1;
              dropdownButton := found;
              dropdownBound := dropdownBound s ++ [button] |})
      | None =>
          (Throw TypeError,
           {| page := p1; dropdownButton := found;
              dropdownBound := dropdownBound s |})
      end
  | (Throw e, p1) =>
      (Throw e,
       {| page := p1; dropdownButton := dropdownButton s;
          dropdownBound := dropdownBound s |})
  end.

(** The script, top to bottom. *)
Definition script (s : Script) : Completion unit * Script :=
  match initialiseHamburger (page s) with
  | (Normal _, p1) =>
      initialiseDropdown
        {| page := p1; dropdownButton := dropdownButton s;
           dropdownBound := dropdownBound s |}
  | (Throw e, p1) =>
      (Throw e,
       {| page := p1; dropdownButton := dropdownButton s;
          dropdownBound := dropdownBound s |})
  end.

Definition load (els : list Element) : Script :=
  {| page := load els; dropdownButton := None; dropdownBound := [] |}.

(** A click on [target]: the listeners of the page bound to it (the
    hamburger handler, bound first), then the dropdown handler if it is
    bound to it. *)
Definition click (target : Node) (s : Script) : Script :=
  {| page := foldl (λ q _, (dropdownClick q).2)
                   (click target (page s))
                   (filter (λ n, n = target) (dropdownBound s));
     dropdownButton := dropdownButton s;
     dropdownBound := dropdownBound s |}.

Definition clicks (targets : list Node) (s : Script) : Script :=
  foldl (λ r t, click t r) s targets.

(** The script state once the script has run on the document [els]. *)
Definition boot (els : list Element) : Script := (script (load els)).2.

(** The panel and the icon the handler looks up. *)
Definition panelOf (p : Page) : option Node :=
  head (select "#problems-dropdown-items" (elements p)).

Definition iconOf (p : Page) : option Node :=
  head (select "#problems-dropdown-expand" (elements p)).

(** A page for this script. *)
Definition sampleDoc : list Element :=
  [ el "hamburger-button" ["hamburger"] None;
    el "site-nav-items" ["site-nav__items"] None;
    el "problems-dropdown-button" ["dropdown__button"]
       (Some "problems-dropdown-items");
    el "problems-dropdown-expand" ["dropdown__expand"] None;
    el "problems-dropdown-items" ["dropdown__items"] None ].

(** The same page without the icon. *)
Definition noIconDoc : list Element :=
  [ el "hamburger-button" ["hamburger"] None;
    el "site-nav-items" ["site-nav__items"] None;
    el "problems-dropdown-button" ["dropdown__button"]
       (Some "problems-dropdown-items");
    el "problems-dropdown-items" ["dropdown__items"] None ].

End IndexJs.

(** More documents used as concrete inputs. *)

(** A trigger without association attribute, and an element whose id is
    the text [null]. *)
Definition nullIdDoc : list Element :=
  [ el "hamburger-button" ["hamburger"] None;
    el "bare-button" ["dropdown__button"] None;
    el "null" ["dropdown__items"] None;
    el "a-dropdown-expand" ["dropdown__expand"; "dropdown__expand--open"] None ].

(** A trigger whose attribute value does not hold [items]. *)
Definition noItemsDoc : list Element :=
  [ el "hamburger-button" ["hamburger"] None;
    el "menu-button" ["dropdown__button"] (Some "menu-list");
    el "menu-list" ["dropdown__items"] None ].

(** Item A has a panel and no icon; item B is open; the trigger of item C
    names a panel that does not exist. *)
Definition noIconDoc : list Element :=
  [ el "hamburger-button" ["hamburger"] None;
    el "a-dropdown-button" ["dropdown__button"] (Some "a-dropdown-items");
    el "a-dropdown-items" ["dropdown__items"] None;
    el "b-dropdown-button" ["dropdown__button"] (Some "b-dropdown-items");
    el "b-dropdown-expand" ["dropdown__expand"; "dropdown__expand--open"] None;
    el "b-dropdown-items" ["dropdown__items"; "dropdown__items--open"] None;
    el "c-dropdown-button" ["dropdown__button"] (Some "c-dropdown-items") ].

(** A page without the hamburger trigger. *)
Definition noHamburgerDoc : list Element :=
  [ el "site-nav-items" ["site-nav__items"] None;
    el "a-dropdown-button" ["dropdown__button"] (Some "a-dropdown-items");
    el "a-dropdown-expand" ["dropdown__expand"] None;
    el "a-dropdown-items" ["dropdown__items"] None ].

(** ** Runs of handlers *)

(** An event names the handler that runs: [None] the hamburger handler,
    [Some b] the handler of the dropdown trigger [b], holding the panels
    and icons of the document [els].  A click runs the handlers bound to
    its target and, through bubbling, those bound to the elements around
    it: a click sequence is a sequence of such runs. *)
Definition handlerOf (els : list Element) (e : option Node) : Listener :=
  match e with
  | None => hamburgerListener
  | Some b =>
      dropdownListener b (select ".dropdown__items" els)
                         (select ".dropdown__expand" els)
  end.

Definition runHandlers (els : list Element) (events : list (option Node))
    (p : Page) : Page :=
  foldl (λ q e, (runListener (handlerOf els e) q).2) p events.

(** The accordion driven by handler runs: a run of the hamburger handler
    leaves it as it is. *)
Definition accordionEvent (open : option Node) (e : option Node) : option Node :=
  match e with
  | None => open
  | Some b => accordionStep open b
  end.

Definition accordionEvents (events : list (option Node)) : option Node :=
  foldl accordionEvent None events.

(** The events of a page: a dropdown handler exists for the triggers the
    script found, and for no other node. *)
Definition boundEvent (els : list Element) (e : option Node) : bool :=
  match e with
  | None => true
  | Some b => bool_decide (b ∈ select ".dropdown__button" els)
  end.

(** * Properties *)

(** ** Class tokens *)

Section tokens.
Implicit Types (tok : string) (l : list string) (els : list Element).

Lemma contains_true tok l : DOMTokenList.contains tok l = true ↔ tok ∈ l.
Proof. unfold DOMTokenList.contains. by rewrite bool_decide_eq_true. Qed.

Lemma contains_false tok l : DOMTokenList.contains tok l = false ↔ tok ∉ l.
Proof. unfold DOMTokenList.contains. by rewrite bool_decide_eq_false. Qed.

Lemma contains_remove_eq tok l :
  DOMTokenList.contains tok (DOMTokenList.remove tok l) = false.
Proof.
  apply contains_false. unfold DOMTokenList.remove.
  rewrite list_elem_of_filter. intros [Hne _]. by apply Hne.
Qed.

Lemma contains_remove_ne tok tok' l :
  tok ≠ tok' →
  DOMTokenList.contains tok (DOMTokenList.remove tok' l)
  = DOMTokenList.contains tok l.
Proof.
  intros Hne. unfold DOMTokenList.contains, DOMTokenList.remove.
  apply bool_decide_ext. rewrite list_elem_of_filter.
  split; [by intros [_ ?]|]. intros Hin. split; [|done]. congruence.
Qed.

Lemma contains_add_eq tok l :
  DOMTokenList.contains tok (DOMTokenList.add tok l) = true.
Proof.
  unfold DOMTokenList.add.
  destruct (DOMTokenList.contains tok l) eqn:E; [done|].
  apply contains_true. set_solver.
Qed.

Lemma contains_add_ne tok tok' l :
  tok ≠ tok' →
  DOMTokenList.contains tok (DOMTokenList.add tok' l)
  = DOMTokenList.contains tok l.
Proof.
  intros Hne. unfold DOMTokenList.add.
  destruct (DOMTokenList.contains tok' l); [done|].
  unfold DOMTokenList.contains. apply bool_decide_ext. set_solver.
Qed.

Lemma contains_toggle_eq tok l :
  DOMTokenList.contains tok (DOMTokenList.toggle tok l)
  = negb (DOMTokenList.contains tok l).
Proof.
  unfold DOMTokenList.toggle.
  destruct (DOMTokenList.contains tok l) eqn:E; simpl.
  - apply contains_remove_eq.
  - apply contains_add_eq.
Qed.

Lemma contains_toggle_ne tok tok' l :
  tok ≠ tok' →
  DOMTokenList.contains tok (DOMTokenList.toggle tok' l)
  = DOMTokenList.contains tok l.
Proof.
  intros Hne. unfold DOMTokenList.toggle.
  destruct (DOMTokenList.contains tok' l).
  - by apply contains_remove_ne.
  - by apply contains_add_ne.
Qed.

Lemma remove_absent tok l :
  DOMTokenList.contains tok l = false → DOMTokenList.remove tok l = l.
Proof.
  rewrite contains_false. unfold DOMTokenList.remove. intros Hnin.
  induction l as [|t l IH]; [done|].
  rewrite filter_cons. case_decide as Ht.
  - f_equal. apply IH. set_solver.
  - exfalso. apply Hnin. subst t. apply list_elem_of_here.
Qed.

(** Token membership after an edit of the class list of node [n]. *)
Lemma hasToken_alter_other els f n m tok :
  m ≠ n → hasToken (alter (set_classList f) n els) m tok = hasToken els m tok.
Proof. intros Hne. unfold hasToken. by rewrite list_lookup_alter_ne. Qed.

Lemma hasToken_alter_same els f n tok :
  hasToken (alter (set_classList f) n els) n tok
  = match els !! n with
    | Some e => DOMTokenList.contains tok (f (classList e))
    | None => false
    end.
Proof.
  unfold hasToken. rewrite list_lookup_alter_eq.
  destruct (els !! n); reflexivity.
Qed.

Lemma hasToken_alter_frame els f n m tok :
  (∀ l, DOMTokenList.contains tok (f l) = DOMTokenList.contains tok l) →
  hasToken (alter (set_classList f) n els) m tok = hasToken els m tok.
Proof.
  intros Hf. destruct (decide (m = n)) as [->|Hne].
  - rewrite hasToken_alter_same. unfold hasToken.
    destruct (els !! n); [apply Hf|done].
  - by apply hasToken_alter_other.
Qed.

Lemma hasToken_toggle_same els n tok :
  n < length els →
  hasToken (alter (set_classList (DOMTokenList.toggle tok)) n els) n tok
  = negb (hasToken els n tok).
Proof.
  intros Hlt. rewrite hasToken_alter_same. unfold hasToken.
  destruct (lookup_lt_is_Some_2 els n Hlt) as [e ->].
  apply contains_toggle_eq.
Qed.

Lemma hasToken_remove_same els n tok :
  hasToken (alter (set_classList (DOMTokenList.remove tok)) n els) n tok = false.
Proof.
  rewrite hasToken_alter_same.
  destruct (els !! n); [apply contains_remove_eq|done].
Qed.

Lemma hasToken_lt els n tok : hasToken els n tok = true → n < length els.
Proof.
  unfold hasToken. destruct (els !! n) eqn:E; [|done].
  intros _. by eapply lookup_lt_Some.
Qed.

End tokens.

(** ** What a handler may edit *)

Section frame.
Implicit Types (toks : list string) (p : Page) (els : list Element).

Lemma edits_refl toks p : edits toks p p.
Proof. by constructor. Qed.

Lemma edits_trans toks p1 p2 p3 :
  edits toks p1 p2 → edits toks p2 p3 → edits toks p1 p3.
Proof.
  intros [B1 L1 I1 A1 T1] [B2 L2 I2 A2 T2]. constructor; try congruence.
  intros n tok Hnin. by rewrite T2, T1.
Qed.

Lemma edits_length toks p p' :
  edits toks p p' → length (elements p') = length (elements p).
Proof.
  intros H. rewrite <- (length_fmap el_id (elements p')).
  rewrite (edits_ids _ _ _ H). apply length_fmap.
Qed.

Lemma edits_el_id toks p p' n :
  edits toks p p' →
  el_id <$> (elements p' !! n) = el_id <$> (elements p !! n).
Proof.
  intros H. rewrite <- !list_lookup_fmap. by rewrite (edits_ids _ _ _ H).
Qed.

Lemma edits_aria_controls toks p p' n :
  edits toks p p' →
  elements p' !! n ≫= aria_controls = elements p !! n ≫= aria_controls.
Proof.
  intros H.
  assert (aria_controls <$> (elements p' !! n)
          = aria_controls <$> (elements p !! n)) as E.
  { rewrite <- !list_lookup_fmap. by rewrite (edits_attrs _ _ _ H). }
  destruct (elements p' !! n), (elements p !! n); simpl in *; congruence.
Qed.

Lemma fmap_alter_classList {B} (g : Element → B) f n els :
  (∀ e, g (set_classList f e) = g e) →
  g <$> alter (set_classList f) n els = g <$> els.
Proof.
  intros Hg. apply list_eq. intros i. rewrite !list_lookup_fmap.
  destruct (decide (i = n)) as [->|Hne].
  - rewrite list_lookup_alter_eq. destruct (els !! n); simpl; [|done].
    by rewrite Hg.
  - by rewrite list_lookup_alter_ne.
Qed.

Lemma edits_alter toks f n p :
  (∀ tok l, tok ∉ toks →
     DOMTokenList.contains tok (f l) = DOMTokenList.contains tok l) →
  edits toks p (set_elements (alter (set_classList f) n) p).
Proof.
  intros Hf. constructor; simpl; try done.
  - by apply fmap_alter_classList.
  - by apply fmap_alter_classList.
  - intros m tok Hnin. apply hasToken_alter_frame. intros l. by apply Hf.
Qed.

Lemma edits_record toks c p : edits toks p (record c p).
Proof. by constructor. Qed.

Lemma frames_ret {A} toks (a : A) : frames toks (ret a).
Proof. intros p. apply edits_refl. Qed.

Lemma frames_throw {A} toks e : frames toks (@throw A e).
Proof. intros p. apply edits_refl. Qed.

Lemma frames_bind {A B} toks (m : M A) (k : A → M B) :
  frames toks m → (∀ a, frames toks (k a)) → frames toks (bind m k).
Proof.
  intros Hm Hk p. unfold bind. specialize (Hm p).
  destruct (m p) as [[a|e] p1]; simpl in *; [|done].
  eapply edits_trans; [exact Hm|apply Hk].
Qed.

Lemma frames_forEach {A} toks (l : list A) (f : A → M unit) :
  (∀ x, frames toks (f x)) → frames toks (forEach l f).
Proof.
  intros Hf. induction l as [|x l IH]; simpl.
  - apply frames_ret.
  - apply frames_bind; [apply Hf|done].
Qed.

Lemma frames_deref {A} toks (v : option A) : frames toks (deref v).
Proof. destruct v; [apply frames_ret|apply frames_throw]. Qed.

Lemma frames_querySelector toks sel : frames toks (document.querySelector sel).
Proof. intros p. apply edits_record. Qed.

Lemma frames_getAttribute toks n : frames toks (getAttribute_aria_controls n).
Proof. intros p. apply edits_record. Qed.

Lemma frames_read_hamburgerButton toks : frames toks read_hamburgerButton.
Proof. intros p. apply edits_refl. Qed.

Lemma frames_contains toks n tok : frames toks (classList_of.contains n tok).
Proof. intros p. apply edits_record. Qed.

Lemma frames_remove toks n tok :
  tok ∈ toks → frames toks (classList_of.remove n tok).
Proof.
  intros Hin p. simpl. eapply edits_trans; [|apply edits_record].
  apply edits_alter. intros tok' l Hnin. apply contains_remove_ne.
  intros ->. by apply Hnin.
Qed.

Lemma frames_toggle toks n tok :
  tok ∈ toks → frames toks (classList_of.toggle n tok).
Proof.
  intros Hin p. simpl. eapply edits_trans; [|apply edits_record].
  apply edits_alter. intros tok' l Hnin. apply contains_toggle_ne.
  intros ->. by apply Hnin.
Qed.

Lemma frames_closeUnlessTarget toks target tok x :
  tok ∈ toks → frames toks (closeUnlessTarget target tok x).
Proof.
  intros Hin. unfold closeUnlessTarget. case_bool_decide.
  - apply frames_ret.
  - apply frames_bind; [apply frames_contains|].
    intros [|]; [by apply frames_remove|apply frames_ret].
Qed.

End frame.

(** One step of a frame proof: split a bind, or close a primitive whose
    token is among the tokens allowed. *)
Ltac frames_step :=
  first
    [ apply frames_bind; [|intros ?]
    | apply frames_ret | apply frames_throw | apply frames_deref
    | apply frames_querySelector | apply frames_getAttribute
    | apply frames_read_hamburgerButton
    | apply frames_forEach; intros ?
    | apply frames_closeUnlessTarget; set_solver
    | apply frames_toggle; set_solver ].

Ltac solve_frames := repeat frames_step.

(** The hamburger handler edits its two tokens and nothing else. *)
Lemma frames_hamburgerClick :
  frames ["site-nav__items--open"; "hamburger--open"] hamburgerClick.
Proof. unfold hamburgerClick. solve_frames. Qed.

(** A dropdown handler edits its two tokens and nothing else. *)
Lemma frames_dropdownClick b panels icons :
  frames ["dropdown__items--open"; "dropdown__expand--open"]
         (dropdownClick b panels icons).
Proof. unfold dropdownClick. solve_frames. Qed.

Lemma frames_iconPhase controls icons :
  frames ["dropdown__expand--open"] (iconPhase controls icons).
Proof. unfold iconPhase. solve_frames. Qed.

Lemma frames_panelPhase b panels :
  frames ["dropdown__items--open"] (panelPhase b panels).
Proof. unfold panelPhase. solve_frames. Qed.

(** ** Selectors that the handlers cannot disturb *)

Section stability.
Implicit Types (toks : list string) (p : Page) (els : list Element).

Lemma matchesNode_edits toks sel p p' n :
  edits toks p p' → stableSelector toks sel →
  matchesNode sel (elements p') n = matchesNode sel (elements p) n.
Proof.
  intros H Hsel. unfold matchesNode, matchesElement.
  destruct sel as [|c r]; [by do 2 case_match|].
  destruct (decide (c = "#"%char)) as [->|Hc1].
  - pose proof (edits_el_id _ _ _ n H) as E.
    destruct (elements p' !! n), (elements p !! n); simpl in E;
      try done. by injection E as ->.
  - destruct (decide (c = "."%char)) as [->|Hc2].
    + apply (edits_tokens _ _ _ H n r Hsel).
    + assert (∀ o : option Element,
        match o with
        | Some e =>
            match c with
            | "#"%char => bool_decide (el_id e = Some r)
            | "."%char => DOMTokenList.contains r (classList e)
            | _ => false
            end
        | None => false
        end = false) as E.
      { intros [e|]; [|done].
        destruct c as [[] [] [] [] [] [] [] []]; try done; congruence. }
      by rewrite !E.
Qed.

Lemma select_edits toks sel p p' :
  edits toks p p' → stableSelector toks sel →
  select sel (elements p') = select sel (elements p).
Proof.
  intros H Hsel. unfold select. rewrite (edits_length _ _ _ H).
  apply list_filter_iff. intros n.
  by rewrite (matchesNode_edits _ _ _ _ n H Hsel).
Qed.

End stability.

(** ** Selected nodes *)

Section select.
Implicit Types (els : list Element) (sel : string).

Lemma elem_of_select sel els n :
  n ∈ select sel els ↔ matchesNode sel els n = true.
Proof.
  unfold select. rewrite list_elem_of_filter, elem_of_seq. split.
  - by intros [? _].
  - intros Hm. split; [done|]. split; [lia|]. simpl.
    unfold matchesNode in Hm. destruct (els !! n) eqn:E; [|done].
    by eapply lookup_lt_Some.
Qed.

Lemma select_lt sel els n : n ∈ select sel els → n < length els.
Proof.
  unfold select. rewrite list_elem_of_filter, elem_of_seq. lia.
Qed.

Lemma NoDup_select sel els : NoDup (select sel els).
Proof. apply NoDup_filter, NoDup_seq. Qed.

Lemma head_select_elem sel els n :
  head (select sel els) = Some n → n ∈ select sel els.
Proof.
  destruct (select sel els) as [|m l]; simpl; [done|].
  intros [= ->]. apply list_elem_of_here.
Qed.

Lemma head_select_lt sel els n :
  head (select sel els) = Some n → n < length els.
Proof. intros H. eapply select_lt, head_select_elem, H. Qed.

(** A class selector selects the nodes bearing the token. *)
Lemma elem_of_select_class c els n :
  n ∈ select (String "."%char c) els ↔ hasToken els n c = true.
Proof. apply elem_of_select. Qed.

End select.

(** ** The sibling-closing loop *)

Section closing.
Implicit Types (p : Page) (target : option Node) (tok : string).

Lemma closeUnlessTarget_run target tok x p :
  ∃ p', closeUnlessTarget target tok x p = (Normal tt, p')
    ∧ edits [tok] p p'
    ∧ (∀ n, hasToken (elements p') n tok
            = if bool_decide (n = x ∧ Some n ≠ target) then false
              else hasToken (elements p) n tok)
    ∧ calls p' = calls p ++ closeCalls target tok (elements p) [x].
Proof.
  unfold closeUnlessTarget, closeCalls. case_bool_decide as Ht.
  - exists p. split; [done|]. split; [apply edits_refl|]. split.
    + intros n. case_bool_decide as Hn; [|done].
      destruct Hn as [-> Hn]. done.
    + rewrite filter_cons_False by (intros ?; done).
      rewrite filter_nil. simpl. by rewrite app_nil_r.
  - rewrite filter_cons_True by done. rewrite filter_nil.
    unfold bind. simpl.
    destruct (hasToken (elements p) x tok) eqn:Hx; simpl.
    + eexists. split; [done|]. split; [|split].
      * change (edits [tok] p
          ((classList_of.remove x tok (record (CallContains x tok) p)).2)).
        eapply edits_trans; [apply (edits_record [tok])|].
        apply frames_remove. set_solver.
      * intros n. simpl. case_bool_decide as Hn.
        -- destruct Hn as [-> _]. apply hasToken_remove_same.
        -- apply hasToken_alter_other. intros ->. by apply Hn.
      * simpl. by rewrite <- app_assoc.
    + eexists. split; [done|]. split; [apply edits_record|]. split.
      * intros n. simpl. case_bool_decide as Hn; [|done].
        by destruct Hn as [-> _].
      * done.
Qed.

Lemma bind_ext_elem_of {A B} (f g : A → list B) (l : list A) :
  (∀ x, x ∈ l → f x = g x) → l ≫= f = l ≫= g.
Proof.
  induction l as [|a l IH]; intros H; [done|].
  rewrite !bind_cons. f_equal.
  - apply H, list_elem_of_here.
  - apply IH. intros y Hy. by apply H, list_elem_of_further.
Qed.

Lemma closeCalls_cons target tok els x l :
  (∀ n, n ∈ l → n ≠ x) →
  ∀ els',
    (∀ n, n ≠ x → hasToken els' n tok = hasToken els n tok) →
    closeCalls target tok els (x :: l)
    = closeCalls target tok els [x] ++ closeCalls target tok els' l.
Proof.
  intros Hx els' Hels. unfold closeCalls.
  change (x :: l) with ([x] ++ l). rewrite filter_app, bind_app.
  f_equal. apply bind_ext_elem_of.
  intros n Hn. apply list_elem_of_filter in Hn as [_ Hn].
  by rewrite Hels by (by apply Hx).
Qed.

Lemma forEach_close_run target tok l p :
  ∃ p', forEach l (closeUnlessTarget target tok) p = (Normal tt, p')
    ∧ edits [tok] p p'
    ∧ (∀ n, hasToken (elements p') n tok
            = if bool_decide (n ∈ l ∧ Some n ≠ target) then false
              else hasToken (elements p) n tok)
    ∧ (NoDup l → calls p' = calls p ++ closeCalls target tok (elements p) l).
Proof.
  revert p. induction l as [|x l IH]; intros p.
  - exists p. split; [done|]. split; [apply edits_refl|]. split.
    + intros n. case_bool_decide as Hn; [|done].
      destruct Hn as [Hn _]. by apply elem_of_nil in Hn.
    + intros _. unfold closeCalls. rewrite filter_nil. simpl.
      by rewrite app_nil_r.
  - destruct (closeUnlessTarget_run target tok x p)
      as (p1 & E1 & F1 & T1 & C1).
    destruct (IH p1) as (p2 & E2 & F2 & T2 & C2).
    exists p2. split; [|split; [|split]].
    + simpl. unfold bind. by rewrite E1.
    + by eapply edits_trans.
    + intros n. rewrite T2, T1.
      repeat case_bool_decide; try done; exfalso; set_solver.
    + intros Hnd. apply NoDup_cons in Hnd as [Hx Hnd].
      rewrite (C2 Hnd), C1, <- app_assoc. f_equal.
      symmetry. apply closeCalls_cons.
      * intros n Hn ->. done.
      * intros n Hn. rewrite T1. case_bool_decide as Hc; [|done].
        by destruct Hc as [-> _].
Qed.

End closing.

(** ** The dropdown handler, phase by phase *)

Section dropdown.
Implicit Types (p : Page) (b n : Node) (panels icons : list Node).

Lemma dropdownClick_phases b panels icons p :
  dropdownClick b panels icons p
  = bind (panelPhase b panels) (λ controls, iconPhase controls icons) p.
Proof.
  unfold dropdownClick, panelPhase, bind. simpl.
  destruct (forEach panels _ _) as [[[]|e] p1]; [|done].
  destruct (panelOf p b) eqn:E; unfold panelOf, controlsOf in E;
    rewrite E; reflexivity.
Qed.

Lemma closeCalls_ext target tok els els' l :
  (∀ n, hasToken els' n tok = hasToken els n tok) →
  closeCalls target tok els' l = closeCalls target tok els l.
Proof.
  intros H. unfold closeCalls. apply bind_ext_elem_of.
  intros x _. by rewrite H.
Qed.

(** The panel phase, whatever the trigger resolves to: the resolved panel
    is flipped and every other listed panel ends closed.  When nothing
    resolves, every listed panel ends closed and the handler throws. *)
Lemma panelPhase_run b panels p :
  ∃ p', (panelPhase b panels p).2 = p'
    ∧ (panelPhase b panels p).1
      = match panelOf p b with
        | Some _ => Normal (controlsOf p b)
        | None => Throw TypeError
        end
    ∧ (∀ n, panelOpen p' n
            = if bool_decide (panelOf p b = Some n) then negb (panelOpen p n)
              else if bool_decide (n ∈ panels) then false
              else panelOpen p n)
    ∧ (NoDup panels →
       calls p'
       = calls p
         ++ [CallGetAttribute b "aria-controls";
             CallQuerySelector ("#" +:+ JsString.template (controlsOf p b))]
         ++ closeCalls (panelOf p b) "dropdown__items--open" (elements p) panels
         ++ match panelOf p b with
            | Some pn => [CallToggle pn "dropdown__items--open"]
            | None => []
            end).
Proof.
  eexists. split; [reflexivity|].
  unfold panelPhase, bind. simpl.
  fold (controlsOf p b). fold (panelOf p b).
  set (p0 := record _ (record _ p)).
  destruct (forEach_close_run (panelOf p b) "dropdown__items--open" panels p0)
    as (p1 & E1 & F1 & T1 & C1).
  rewrite E1. unfold panelOpen.
  destruct (panelOf p b) as [pn|] eqn:Hpn; simpl.
  - split; [done|]. split.
    + intros n. case_bool_decide as Hn.
      * injection Hn as ->.
        rewrite hasToken_toggle_same.
        2:{ rewrite (edits_length _ _ _ F1). simpl.
            eapply head_select_lt, Hpn. }
        rewrite T1. case_bool_decide as Hc; [by destruct Hc|done].
      * rewrite hasToken_alter_other by congruence.
        rewrite T1. repeat case_bool_decide; try done; exfalso; naive_solver.
    + intros Hnd. rewrite (C1 Hnd). subst p0. simpl.
      rewrite <- !app_assoc. reflexivity.
  - split; [done|]. split.
    + intros n. rewrite T1.
      repeat case_bool_decide; try done; exfalso; naive_solver.
    + intros Hnd. rewrite (C1 Hnd). subst p0. simpl.
      rewrite <- !app_assoc. by rewrite app_nil_r.
Qed.

(** The icon phase when the attribute is present and the icon resolves. *)
Lemma iconPhase_run c icons p ic :
  head (select ("#" +:+ JsString.replace "items" "expand" c) (elements p))
    = Some ic →
  ∃ p', iconPhase (Some c) icons p = (Normal tt, p')
    ∧ (∀ n, iconOpen p' n
            = if bool_decide (n = ic) then negb (iconOpen p n)
              else if bool_decide (n ∈ icons) then false
              else iconOpen p n)
    ∧ (NoDup icons →
       calls p'
       = calls p
         ++ [CallQuerySelector ("#" +:+ JsString.replace "items" "expand" c)]
         ++ closeCalls (Some ic) "dropdown__expand--open" (elements p) icons
         ++ [CallToggle ic "dropdown__expand--open"]).
Proof.
  intros Hic. unfold iconPhase, bind. simpl. rewrite Hic.
  set (p0 := record _ p).
  destruct (forEach_close_run (Some ic) "dropdown__expand--open" icons p0)
    as (p1 & E1 & F1 & T1 & C1).
  rewrite E1. simpl. eexists. split; [reflexivity|]. unfold iconOpen. split.
  - intros n. simpl. case_bool_decide as Hn.
    + subst n. rewrite hasToken_toggle_same.
      2:{ rewrite (edits_length _ _ _ F1). simpl.
          eapply head_select_lt, Hic. }
      rewrite T1. case_bool_decide as Hc; [by destruct Hc|done].
    + rewrite hasToken_alter_other by done.
      rewrite T1. repeat case_bool_decide; try done; exfalso; naive_solver.
  - intros Hnd. simpl. rewrite (C1 Hnd). subst p0. simpl.
    rewrite <- !app_assoc. reflexivity.
Qed.

End dropdown.

(** ** The dropdown handler as a whole *)

Section dropdownClick.
Implicit Types (p : Page) (b n : Node) (panels icons : list Node).

Lemma hash_selector_stable toks s : stableSelector toks ("#" +:+ s).
Proof. exact I. Qed.

Lemma controlsOf_edits toks p p' b :
  edits toks p p' → controlsOf p' b = controlsOf p b.
Proof. intros H. by apply (edits_aria_controls toks). Qed.

Lemma panelOf_edits toks p p' b :
  edits toks p p' → panelOf p' b = panelOf p b.
Proof.
  intros H. unfold panelOf.
  rewrite (controlsOf_edits _ _ _ b H).
  by rewrite (select_edits toks _ p p' H (hash_selector_stable _ _)).
Qed.

Lemma iconOf_edits toks p p' b :
  edits toks p p' → iconOf p' b = iconOf p b.
Proof.
  intros H. unfold iconOf.
  rewrite (controlsOf_edits _ _ _ b H).
  destruct (controlsOf p b) as [c|]; simpl; [|done].
  by rewrite (select_edits toks _ p p' H (hash_selector_stable _ _)).
Qed.

(** The panels after a click on trigger [b], whatever [b] resolves to and
    whether or not the handler completes. *)
Lemma dropdownClick_panelOpen b panels icons p n :
  panelOpen (dropdownClick b panels icons p).2 n
  = if bool_decide (panelOf p b = Some n) then negb (panelOpen p n)
    else if bool_decide (n ∈ panels) then false
    else panelOpen p n.
Proof.
  rewrite dropdownClick_phases. unfold bind.
  destruct (panelPhase_run b panels p) as (p1 & E1 & _ & T1 & _).
  destruct (panelPhase b panels p) as [[controls|e] q]; simpl in E1; subst q.
  - rewrite <- T1. unfold panelOpen.
    apply (edits_tokens _ _ _ (frames_iconPhase controls icons p1)).
    set_solver.
  - simpl. apply T1.
Qed.

(** The click when attribute, panel and icon all resolve. *)
Lemma dropdownClick_resolved b panels icons p c pn ic :
  controlsOf p b = Some c → panelOf p b = Some pn → iconOf p b = Some ic →
  ∃ p', dropdownClick b panels icons p = (Normal tt, p')
    ∧ (∀ n, iconOpen p' n
            = if bool_decide (n = ic) then negb (iconOpen p n)
              else if bool_decide (n ∈ icons) then false
              else iconOpen p n)
    ∧ (NoDup panels → NoDup icons →
       calls p'
       = calls p
         ++ [CallGetAttribute b "aria-controls"; CallQuerySelector ("#" +:+ c)]
         ++ closeCalls (Some pn) "dropdown__items--open" (elements p) panels
         ++ [CallToggle pn "dropdown__items--open";
             CallQuerySelector ("#" +:+ JsString.replace "items" "expand" c)]
         ++ closeCalls (Some ic) "dropdown__expand--open" (elements p) icons
         ++ [CallToggle ic "dropdown__expand--open"]).
Proof.
  intros Hc Hpn Hic. rewrite dropdownClick_phases. unfold bind.
  destruct (panelPhase_run b panels p) as (p1 & E1 & R1 & _ & C1).
  pose proof (frames_panelPhase b panels p) as F1.
  rewrite Hpn, Hc in R1, C1.
  destruct (panelPhase b panels p) as [r q]; simpl in E1, R1, F1.
  subst q r.
  unfold iconOf in Hic. rewrite Hc in Hic. simpl in Hic.
  rewrite <- (select_edits _ _ p p1 F1 (hash_selector_stable _ _)) in Hic.
  destruct (iconPhase_run c icons p1 ic Hic) as (p2 & E2 & T2 & C2).
  exists p2. split; [done|]. split.
  - intros n. rewrite T2. unfold iconOpen.
    rewrite !(edits_tokens _ _ _ F1) by set_solver. done.
  - intros Hnp Hni. rewrite (C2 Hni), (C1 Hnp).
    rewrite (closeCalls_ext _ _ (elements p) (elements p1)).
    2:{ intros n. apply (edits_tokens _ _ _ F1). set_solver. }
    simpl. rewrite <- !app_assoc. simpl. do 3 f_equal.
    by rewrite <- app_assoc.
Qed.

End dropdownClick.

(** ** The hamburger handler *)

Section hamburger.
Implicit Types (p : Page).

Lemma navPanelOf_edits toks p p' :
  edits toks p p' → navPanelOf p' = navPanelOf p.
Proof.
  intros H. unfold navPanelOf.
  by rewrite (select_edits toks "#site-nav-items" p p' H I).
Qed.

Lemma hamburgerClick_navPanelOpen p :
  navPanelOpen (hamburgerClick p).2
  = match navPanelOf p with
    | Some _ => negb (navPanelOpen p)
    | None => navPanelOpen p
    end.
Proof.
  pose proof (frames_hamburgerClick p) as F.
  unfold navPanelOpen. fold (navPanelOf (hamburgerClick p).2).
  rewrite (navPanelOf_edits _ _ _ F). fold (navPanelOf p).
  clear F. unfold hamburgerClick, bind. simpl. fold (navPanelOf p).
  destruct (navPanelOf p) as [np|] eqn:Hnp; simpl; [|done].
  assert (np < length (elements p)) as Hlt
    by (eapply head_select_lt, Hnp).
  destruct (hamburgerButton p) as [hb|]; simpl.
  - rewrite hasToken_alter_frame.
    2:{ intros l. by apply contains_toggle_ne. }
    by apply hasToken_toggle_same.
  - by apply hasToken_toggle_same.
Qed.

Lemma hamburgerClick_hamburgerIconOpen p :
  hamburgerIconOpen (hamburgerClick p).2
  = match navPanelOf p with
    | Some _ =>
        if buttonBound p then negb (hamburgerIconOpen p)
        else hamburgerIconOpen p
    | None => hamburgerIconOpen p
    end.
Proof.
  unfold hamburgerIconOpen, buttonBound, hamburgerClick, bind. simpl.
  fold (navPanelOf p).
  destruct (navPanelOf p) as [np|] eqn:Hnp; simpl; [|done].
  destruct (hamburgerButton p) as [hb|] eqn:Hhb; simpl; rewrite ?Hhb;
    [|done].
  case_bool_decide as Hlt.
  - rewrite hasToken_toggle_same by (by rewrite length_alter).
    f_equal. apply hasToken_alter_frame.
    intros l. by apply contains_toggle_ne.
  - rewrite hasToken_alter_same.
    rewrite list_lookup_alter.
    assert (elements p !! hb = None) as E by (apply lookup_ge_None; lia).
    unfold hasToken. rewrite E.
    case_decide as Hd; [subst np; by rewrite E|done].
Qed.

Lemma hamburgerClick_completion p :
  (hamburgerClick p).1
  = match navPanelOf p, hamburgerButton p with
    | Some _, Some _ => Normal tt
    | _, _ => Throw TypeError
    end.
Proof.
  unfold hamburgerClick, bind. simpl. fold (navPanelOf p).
  destruct (navPanelOf p); simpl; [|done].
  by destruct (hamburgerButton p).
Qed.

Lemma buttonBound_edits toks p p' :
  edits toks p p' → buttonBound p' = buttonBound p.
Proof.
  intros H. unfold buttonBound.
  by rewrite (edits_button _ _ _ H), (edits_length _ _ _ H).
Qed.

End hamburger.

(** ** Running the script *)

Section script.
Implicit Types (p q : Page) (els : list Element).

Lemma forEach_addEventListener (f : Node → Listener) (l : list Node) p :
  forEach l (λ b, addEventListener b "click" (f b)) p
  = (Normal tt,
     {| elements := elements p; hamburgerButton := hamburgerButton p;
        listeners := listeners p ++ ((λ b, (b, f b)) <$> l);
        calls := calls p ++ ((λ b, CallAddEventListener b "click") <$> l) |}).
Proof.
  revert p. induction l as [|b l IH]; intros p.
  - simpl. rewrite !app_nil_r. by destruct p.
  - simpl. unfold bind. simpl. rewrite IH. simpl.
    by rewrite <- !app_assoc.
Qed.

Lemma initialiseHamburger_run p :
  initialiseHamburger p
  = match head (select "#hamburger-button" (elements p)) with
    | Some hb =>
        (Normal tt,
         {| elements := elements p; hamburgerButton := Some hb;
            listeners := listeners p ++ [(hb, hamburgerListener)];
            calls := calls p ++ [CallQuerySelector "#hamburger-button";
                                 CallAddEventListener hb "click"] |})
    | None =>
        (Throw TypeError,
         {| elements := elements p; hamburgerButton := None;
            listeners := listeners p;
            calls := calls p ++ [CallQuerySelector "#hamburger-button"] |})
    end.
Proof.
  unfold initialiseHamburger, bind. simpl.
  destruct (head _) as [hb|]; simpl; [|done].
  unfold addEventListener, record. simpl. by rewrite <- app_assoc.
Qed.

Lemma script_run els :
  script (load els)
  = match head (select "#hamburger-button" els) with
    | Some hb =>
        (Normal tt,
         {| elements := els; hamburgerButton := Some hb;
            listeners :=
              (hb, hamburgerListener)
              :: ((λ b, (b, dropdownListener b
                              (select ".dropdown__items" els)
                              (select ".dropdown__expand" els)))
                    <$> select ".dropdown__button" els);
            calls :=
              [CallQuerySelector "#hamburger-button";
               CallAddEventListener hb "click";
               CallQuerySelectorAll ".dropdown__button";
               CallQuerySelectorAll ".dropdown__items";
               CallQuerySelectorAll ".dropdown__expand"]
              ++ ((λ b, CallAddEventListener b "click")
                    <$> select ".dropdown__button" els) |})
    | None =>
        (Throw TypeError,
         {| elements := els; hamburgerButton := None; listeners := [];
            calls := [CallQuerySelector "#hamburger-button"] |})
    end.
Proof.
  unfold script, bind. rewrite initialiseHamburger_run. simpl.
  destruct (head _) as [hb|]; [|done].
  unfold initialiseDropdown, bind. simpl.
  by rewrite forEach_addEventListener.
Qed.

Lemma boot_elements els : elements (boot els) = els.
Proof.
  unfold boot. rewrite script_run. by destruct (head _).
Qed.

(** Every listener of the booted page is the hamburger handler, bound to
    the node the global holds, or the handler of a trigger, holding the
    panels and icons of the document. *)
Lemma boot_listeners els n l :
  (n, l) ∈ listeners (boot els) →
  (l = hamburgerListener ∧ buttonBound (boot els) = true)
  ∨ (l = dropdownListener n (select ".dropdown__items" els)
                            (select ".dropdown__expand" els)
     ∧ n ∈ select ".dropdown__button" els).
Proof.
  unfold boot, buttonBound. rewrite script_run.
  destruct (head _) as [hb|] eqn:Hhb; simpl.
  - rewrite elem_of_cons, list_elem_of_fmap.
    intros [[= -> ->]|(b & [= -> ->] & Hb)]; [left|right; done].
    split; [done|]. apply bool_decide_eq_true. eapply head_select_lt, Hhb.
  - by intros ?%elem_of_nil.
Qed.

Lemma edits_weaken toks toks' p q :
  toks ⊆ toks' → edits toks p q → edits toks' p q.
Proof.
  intros Hsub [B L I' A T]. constructor; try done.
  intros n tok Hnin. apply T. intros Hin. by apply Hnin, Hsub.
Qed.

Lemma runListener_edits l p : edits openTokens p (runListener l p).2.
Proof.
  destruct l as [|b panels icons]; simpl.
  - eapply edits_weaken; [|apply frames_hamburgerClick].
    unfold openTokens. set_solver.
  - eapply edits_weaken; [|apply frames_dropdownClick].
    unfold openTokens. set_solver.
Qed.

(** An invariant of the listeners is an invariant of every click
    sequence. *)
Lemma clicks_invariant (Inv : Page → Prop) p0 :
  (∀ q n l, edits openTokens p0 q → Inv q → (n, l) ∈ listeners p0 →
            Inv (runListener l q).2) →
  Inv p0 →
  ∀ targets,
    Inv (clicks targets p0) ∧ edits openTokens p0 (clicks targets p0).
Proof.
  intros Hstep H0 targets.
  assert (∀ ls q, (∀ l, l ∈ ls → ∃ n, (n, l) ∈ listeners p0) →
            Inv q ∧ edits openTokens p0 q →
            Inv (foldl (λ q l, (runListener l q).2) q ls)
            ∧ edits openTokens p0 (foldl (λ q l, (runListener l q).2) q ls))
    as Hrun.
  { induction ls as [|l ls IH]; intros q Hls [Hq Eq]; [done|].
    simpl. apply IH.
    - intros l' Hl'. apply Hls. by apply list_elem_of_further.
    - destruct (Hls l (list_elem_of_here _ _)) as [n Hn]. split.
      + by eapply Hstep.
      + eapply edits_trans; [exact Eq|apply runListener_edits]. }
  assert (∀ q, Inv q ∧ edits openTokens p0 q →
            Inv (clicks targets q) ∧ edits openTokens p0 (clicks targets q))
    as Hall.
  { induction targets as [|t ts IH]; intros q Hq; [done|].
    simpl. apply IH. unfold click. apply Hrun; [|done].
    intros l Hl. apply list_elem_of_fmap in Hl as ([n l'] & -> & Hl).
    apply list_elem_of_filter in Hl as [_ Hl].
    exists n. by rewrite <- (edits_listeners _ _ _ (proj2 Hq)). }
  apply Hall. split; [done|apply edits_refl].
Qed.

End script.

(** ** The scenarios of the specification on the sample document

    Nodes: trigger A = 2, icon A = 3, panel A = 4; B = 5, 6, 7;
    C = 8, 9, 10; hamburger trigger = 0, navigation panel = 1. *)

Example scenario_click_A :
  panelOpen (clicks [2] samplePage) <$> [4; 7; 10] = [true; false; false].
Proof. reflexivity. Qed.

Example scenario_click_A_twice :
  panelOpen (clicks [2; 2] samplePage) <$> [4; 7; 10] = [false; false; false].
Proof. reflexivity. Qed.

Example scenario_click_A_then_B :
  panelOpen (clicks [2; 5] samplePage) <$> [4; 7; 10] = [false; true; false]
  ∧ iconOpen (clicks [2; 5] samplePage) <$> [3; 6; 9] = [false; true; false].
Proof. split; reflexivity. Qed.

Example scenario_two_hamburger_clicks :
  navPanelOpen (clicks [0; 0] samplePage) = false
  ∧ hamburgerIconOpen (clicks [0; 0] samplePage) = false.
Proof. split; reflexivity. Qed.

Example scenario_one_hamburger_click :
  navPanelOpen (clicks [0] samplePage) = true
  ∧ hamburgerIconOpen (clicks [0] samplePage) = true.
Proof. split; reflexivity. Qed.

(** A panel and its icon can part when two items share an icon: after a
    click on the first trigger and one on the second, the second panel is
    open and the shared icon is closed. *)
Example shared_icon_parts :
  dropdownContract sharedIconDoc = false
  ∧ panelOf (boot sharedIconDoc) 3 = Some 6
  ∧ iconOf (boot sharedIconDoc) 3 = Some 4
  ∧ panelOpen (clicks [2; 3] (boot sharedIconDoc)) 6 = true
  ∧ iconOpen (clicks [2; 3] (boot sharedIconDoc)) 4 = false.
Proof. repeat split; reflexivity. Qed.

(** ** Frame properties *)

Lemma navPanelOpen_edits toks p p' :
  edits toks p p' → "site-nav__items--open" ∉ toks →
  navPanelOpen p' = navPanelOpen p.
Proof.
  intros H Hnin. unfold navPanelOpen.
  fold (navPanelOf p'). fold (navPanelOf p).
  rewrite (navPanelOf_edits _ _ _ H).
  destruct (navPanelOf p); [|done]. by apply (edits_tokens _ _ _ H).
Qed.

Lemma hamburgerIconOpen_edits toks p p' :
  edits toks p p' → "hamburger--open" ∉ toks →
  hamburgerIconOpen p' = hamburgerIconOpen p.
Proof.
  intros H Hnin. unfold hamburgerIconOpen. rewrite (edits_button _ _ _ H).
  destruct (hamburgerButton p); [|done]. by apply (edits_tokens _ _ _ H).
Qed.

Lemma dropdownClick_navPanelOpen p b panels icons :
  navPanelOpen (dropdownClick b panels icons p).2 = navPanelOpen p.
Proof.
  apply (navPanelOpen_edits _ _ _ (frames_dropdownClick b panels icons p)).
  set_solver.
Qed.

Lemma dropdownClick_hamburgerIconOpen p b panels icons :
  hamburgerIconOpen (dropdownClick b panels icons p).2 = hamburgerIconOpen p.
Proof.
  apply (hamburgerIconOpen_edits _ _ _ (frames_dropdownClick b panels icons p)).
  set_solver.
Qed.

Lemma hamburgerClick_panelOpen p n :
  panelOpen (hamburgerClick p).2 n = panelOpen p n.
Proof.
  apply (edits_tokens _ _ _ (frames_hamburgerClick p)). set_solver.
Qed.

Lemma hamburgerClick_iconOpen p n :
  iconOpen (hamburgerClick p).2 n = iconOpen p n.
Proof.
  apply (edits_tokens _ _ _ (frames_hamburgerClick p)). set_solver.
Qed.

(** C9. A click handled by a dropdown trigger leaves the open states of the
    navigation panel and of the hamburger icon as they were, and a click
    handled by the hamburger trigger leaves the open state of every
    dropdown panel and of every dropdown icon as it was: the two handlers
    edit disjoint class tokens. *)
Theorem handlers_edit_disjoint_state :
  (∀ p b panels icons,
     navPanelOpen (dropdownClick b panels icons p).2 = navPanelOpen p
     ∧ hamburgerIconOpen (dropdownClick b panels icons p).2
       = hamburgerIconOpen p)
  ∧ (∀ p n,
       panelOpen (hamburgerClick p).2 n = panelOpen p n
       ∧ iconOpen (hamburgerClick p).2 n = iconOpen p n).
Proof.
  split.
  - intros p b panels icons. split.
    + apply dropdownClick_navPanelOpen.
    + apply dropdownClick_hamburgerIconOpen.
  - intros p n. split.
    + apply hamburgerClick_panelOpen.
    + apply hamburgerClick_iconOpen.
Qed.

(** C5. From any state of the page, two hamburger clicks in a row bring the
    open state of the navigation panel and the open state of the hamburger
    icon back to what they were before the first click. *)
Theorem hamburger_two_clicks_restore (p : Page) :
  navPanelOpen (hamburgerClick (hamburgerClick p).2).2 = navPanelOpen p
  ∧ hamburgerIconOpen (hamburgerClick (hamburgerClick p).2).2
    = hamburgerIconOpen p.
Proof.
  pose proof (frames_hamburgerClick p) as F.
  rewrite !hamburgerClick_navPanelOpen, !hamburgerClick_hamburgerIconOpen.
  rewrite (navPanelOf_edits _ _ _ F), (buttonBound_edits _ _ _ F).
  destruct (navPanelOf p); [|done].
  destruct (buttonBound p); by rewrite ?negb_involutive.
Qed.

(** ** The hamburger toggle *)

(** C4. Starting from the navigation panel and the hamburger icon both
    closed, after every click of every finite click sequence (clicks on the
    hamburger trigger, and clicks anywhere else too) the hamburger icon is
    open exactly when the navigation panel is open. *)
Theorem hamburger_lockstep (els : list Element) (targets : list Node) :
  navPanelOpen (boot els) = false →
  hamburgerIconOpen (boot els) = false →
  hamburgerIconOpen (clicks targets (boot els))
  = navPanelOpen (clicks targets (boot els)).
Proof.
  intros Hnav Hicon.
  apply (clicks_invariant (λ q, hamburgerIconOpen q = navPanelOpen q)).
  - intros q n l Hq Inv Hl.
    destruct (boot_listeners els n l Hl) as [[-> Hb]|[-> _]]; simpl.
    + rewrite hamburgerClick_navPanelOpen, hamburgerClick_hamburgerIconOpen.
      rewrite (buttonBound_edits _ _ _ Hq), Hb, Inv. done.
    + by rewrite dropdownClick_navPanelOpen, dropdownClick_hamburgerIconOpen.
  - by rewrite Hnav, Hicon.
Qed.

Lemma hamburger_lockstep_witness :
  navPanelOpen (boot sampleDoc) = false
  ∧ hamburgerIconOpen (boot sampleDoc) = false
  ∧ hamburgerIconOpen (clicks [0; 0; 0] (boot sampleDoc))
    = navPanelOpen (clicks [0; 0; 0] (boot sampleDoc)).
Proof.
  split; [reflexivity|]. split; [reflexivity|].
  apply (hamburger_lockstep sampleDoc [0; 0; 0]); reflexivity.
Defined.

(** ** The dropdown group *)

Lemma forallb_elem_of {A} (f : A → bool) (l : list A) (x : A) :
  forallb f l = true → x ∈ l → f x = true.
Proof.
  intros H Hx. apply list_elem_of_In in Hx.
  by apply (proj1 (forallb_forall f l) H).
Qed.

Lemma filter_at_most_one {A} (P : A → Prop) `{!∀ x, Decision (P x)}
    (l : list A) (o : option A) :
  NoDup l → (∀ x, x ∈ l → P x → o = Some x) → length (filter P l) ≤ 1.
Proof.
  intros Hnd Hall.
  assert (NoDup (filter P l)) as Hnd' by by apply NoDup_filter.
  assert (∀ x, x ∈ filter P l → o = Some x) as Hall'.
  { intros x [HP Hx]%list_elem_of_filter. by apply Hall. }
  destruct (filter P l) as [|x [|y r]]; simpl; [lia|lia|].
  exfalso. apply NoDup_cons in Hnd' as [Hx _]. apply Hx.
  assert (Some x = Some y) as [= ->].
  { rewrite <- (Hall' x), <- (Hall' y); [done| |].
    - apply list_elem_of_further, list_elem_of_here.
    - apply list_elem_of_here. }
  apply list_elem_of_here.
Qed.

Lemma filter_none {A} (P : A → Prop) `{!∀ x, Decision (P x)} (l : list A) :
  (∀ x, x ∈ l → ¬ P x) → filter P l = [].
Proof.
  intros Hall. induction l as [|x l IH]; [done|].
  rewrite filter_cons_False by (apply Hall, list_elem_of_here).
  apply IH. intros y Hy. by apply Hall, list_elem_of_further.
Qed.

(** After the handler of any trigger has run, on any page, at most one of
    the panels it holds is open: no contract on the markup is needed. *)
Lemma dropdownClick_at_most_one p b group icons :
  NoDup group →
  length (openPanels (dropdownClick b group icons p).2 group) ≤ 1.
Proof.
  intros Hnd. unfold openPanels.
  apply (filter_at_most_one _ group (panelOf p b) Hnd).
  intros n Hn. rewrite dropdownClick_panelOpen.
  case_bool_decide as Hres; [done|].
  by rewrite bool_decide_eq_true_2.
Qed.

Lemma openPanels_ext p p' group :
  (∀ n, panelOpen p' n = panelOpen p n) →
  openPanels p' group = openPanels p group.
Proof.
  intros H. unfold openPanels. apply list_filter_iff. intros n.
  by rewrite H.
Qed.

(** C1. In a document whose panels all start closed and whose triggers all
    resolve to a panel of the group, after every click of every finite
    click sequence at most one panel of the group bears the open token. *)
Theorem mutual_exclusion (els : list Element) (targets : list Node) :
  panelsClosed els = true →
  panelsResolve els = true →
  length (openPanels (clicks targets (boot els)) (select ".dropdown__items" els))
  ≤ 1.
Proof.
  intros Hclosed _.
  apply (clicks_invariant
           (λ q, length (openPanels q (select ".dropdown__items" els)) ≤ 1)).
  - intros q n l _ Inv Hl.
    destruct (boot_listeners els n l Hl) as [[-> _]|[-> _]]; simpl.
    + by rewrite (openPanels_ext q) by apply hamburgerClick_panelOpen.
    + apply dropdownClick_at_most_one, NoDup_select.
  - unfold openPanels. rewrite filter_none; [simpl; lia|].
    intros n Hn. unfold panelOpen. rewrite boot_elements.
    apply (forallb_elem_of _ _ _ Hclosed) in Hn.
    by destruct (hasToken els n "dropdown__items--open").
Qed.

Lemma mutual_exclusion_witness :
  panelsClosed sampleDoc = true
  ∧ panelsResolve sampleDoc = true
  ∧ length (openPanels (clicks [2; 5; 5; 8; 2] (boot sampleDoc))
                       (select ".dropdown__items" sampleDoc)) ≤ 1.
Proof.
  split; [reflexivity|]. split; [reflexivity|].
  apply (mutual_exclusion sampleDoc [2; 5; 5; 8; 2]); reflexivity.
Defined.

(** C2. With panel [i] open and panel [j] closed, [i ≠ j], and the
    association attribute of trigger [b], an identifier, resolving to the
    panel [j] of the group, the click handled by [b] ends with [j] open and
    with [i] and every other panel of the group closed. *)
Theorem switch_property (p : Page) (b : Node) (panels icons : list Node)
    (i j : Node) :
  validControls (controlsOf p b) = true →
  panelOf p b = Some j → j ∈ panels →
  i ∈ panels → i ≠ j →
  panelOpen p i = true → panelOpen p j = false →
  panelOpen (dropdownClick b panels icons p).2 j = true
  ∧ panelOpen (dropdownClick b panels icons p).2 i = false
  ∧ ∀ k, k ∈ panels → k ≠ j →
         panelOpen (dropdownClick b panels icons p).2 k = false.
Proof.
  intros _ Hres Hj Hi Hne Hopen Hclosed.
  assert (∀ k, k ∈ panels → k ≠ j →
               panelOpen (dropdownClick b panels icons p).2 k = false) as Hk.
  { intros k Hk Hkj. rewrite dropdownClick_panelOpen.
    rewrite bool_decide_eq_false_2 by congruence.
    by rewrite bool_decide_eq_true_2. }
  split; [|split; [by apply Hk|done]].
  rewrite dropdownClick_panelOpen.
  rewrite bool_decide_eq_true_2 by done. by rewrite Hclosed.
Qed.

Lemma switch_property_witness :
  validControls (controlsOf (clicks [2] samplePage) 5) = true
  ∧ panelOf (clicks [2] samplePage) 5 = Some 7
  ∧ panelOpen (clicks [2] samplePage) 4 = true
  ∧ panelOpen (clicks [2] samplePage) 7 = false
  ∧ panelOpen (dropdownClick 5 [4; 7; 10] [3; 6; 9] (clicks [2] samplePage)).2 7
    = true
  ∧ panelOpen (dropdownClick 5 [4; 7; 10] [3; 6; 9] (clicks [2] samplePage)).2 4
    = false
  ∧ ∀ k, k ∈ [4; 7; 10] → k ≠ 7 →
         panelOpen (dropdownClick 5 [4; 7; 10] [3; 6; 9]
                      (clicks [2] samplePage)).2 k = false.
Proof.
  split; [reflexivity|].
  split; [reflexivity|]. split; [reflexivity|]. split; [reflexivity|].
  apply (switch_property (clicks [2] samplePage) 5 [4; 7; 10] [3; 6; 9] 4 7).
  - reflexivity.
  - reflexivity.
  - by apply (bool_decide_unpack _).
  - by apply (bool_decide_unpack _).
  - lia.
  - reflexivity.
  - reflexivity.
Defined.

(** C3 as stated fails: on a page where the panel of item A is open and its
    icon is closed (mutual exclusion holds, attribute and icon resolve),
    the click handled by A's trigger closes the panel and opens the
    icon. *)
Lemma accordion_close_icon_counterexample :
  length (openPanels (boot panelOpenDoc) [4; 7]) ≤ 1
  ∧ panelOf (boot panelOpenDoc) 2 = Some 4
  ∧ iconOf (boot panelOpenDoc) 2 = Some 3
  ∧ panelOpen (boot panelOpenDoc) 4 = true
  ∧ (dropdownClick 2 [4; 7] [3; 6] (boot panelOpenDoc)).1 = Normal tt
  ∧ panelOpen (dropdownClick 2 [4; 7] [3; 6] (boot panelOpenDoc)).2 4 = false
  ∧ iconOpen (dropdownClick 2 [4; 7] [3; 6] (boot panelOpenDoc)).2 3 = true.
Proof.
  split; [vm_compute; lia|]. repeat split; reflexivity.
Qed.

(** C3, amended. On a page where at most one panel of the group is open,
    the panel of trigger [b] is open and the icon of [b] is open too, the
    attribute value of [b] being an identifier, the click handled by [b]
    completes and leaves no panel of the group open; the panel and the icon
    of [b] both end closed. *)
Theorem accordion_close (p : Page) (b : Node) (panels icons : list Node)
    (c : string) (pn ic : Node) :
  length (openPanels p panels) ≤ 1 →
  controlsOf p b = Some c → cssIdent c = true →
  panelOf p b = Some pn → iconOf p b = Some ic →
  pn ∈ panels →
  panelOpen p pn = true → iconOpen p ic = true →
  (dropdownClick b panels icons p).1 = Normal tt
  ∧ openPanels (dropdownClick b panels icons p).2 panels = []
  ∧ panelOpen (dropdownClick b panels icons p).2 pn = false
  ∧ iconOpen (dropdownClick b panels icons p).2 ic = false.
Proof.
  intros _ Hc _ Hpn Hic Hin Hpanel Hicon.
  destruct (dropdownClick_resolved b panels icons p c pn ic Hc Hpn Hic)
    as (p' & E & T & _).
  assert (∀ n, n ∈ panels →
               panelOpen (dropdownClick b panels icons p).2 n = false) as Hall.
  { intros n Hn. rewrite dropdownClick_panelOpen. case_bool_decide as Hres.
    - assert (n = pn) as -> by congruence. by rewrite Hpanel.
    - by rewrite bool_decide_eq_true_2. }
  split; [by rewrite E|]. split; [|split].
  - apply filter_none. intros n Hn. by rewrite Hall.
  - by apply Hall.
  - rewrite E. simpl. rewrite T.
    rewrite bool_decide_eq_true_2 by done. by rewrite Hicon.
Qed.

Lemma accordion_close_witness :
  length (openPanels (clicks [2] samplePage) [4; 7; 10]) ≤ 1
  ∧ cssIdent "a-dropdown-items" = true
  ∧ panelOpen (clicks [2] samplePage) 4 = true
  ∧ iconOpen (clicks [2] samplePage) 3 = true
  ∧ (dropdownClick 2 [4; 7; 10] [3; 6; 9] (clicks [2] samplePage)).1
    = Normal tt
  ∧ openPanels (dropdownClick 2 [4; 7; 10] [3; 6; 9] (clicks [2] samplePage)).2
               [4; 7; 10] = []
  ∧ panelOpen (dropdownClick 2 [4; 7; 10] [3; 6; 9] (clicks [2] samplePage)).2 4
    = false
  ∧ iconOpen (dropdownClick 2 [4; 7; 10] [3; 6; 9] (clicks [2] samplePage)).2 3
    = false.
Proof.
  split; [vm_compute; lia|].
  split; [reflexivity|]. split; [reflexivity|]. split; [reflexivity|].
  apply (accordion_close (clicks [2] samplePage) 2 [4; 7; 10] [3; 6; 9]
           "a-dropdown-items" 4 3).
  - vm_compute. lia.
  - reflexivity.
  - reflexivity.
  - reflexivity.
  - reflexivity.
  - by apply (bool_decide_unpack _).
  - reflexivity.
  - reflexivity.
Defined.

(** ** Panels and icons in step *)

Section contract.
Variable els : list Element.
Hypothesis contract : dropdownContract els = true.

Let triggers := select ".dropdown__button" els.
Let panels := select ".dropdown__items" els.
Let icons := select ".dropdown__expand" els.

Lemma contract_resolves b :
  b ∈ triggers →
  ∃ c pn ic,
    controlsOf (load els) b = Some c ∧ panelOf (load els) b = Some pn
    ∧ iconOf (load els) b = Some ic ∧ pn ∈ panels ∧ ic ∈ icons.
Proof using contract.
  intros Hb. unfold dropdownContract in contract.
  apply andb_prop in contract as [[[H _]%andb_prop _]%andb_prop _].
  apply (forallb_elem_of _ _ _ H) in Hb. unfold itemResolves in Hb.
  destruct (controlsOf (load els) b) as [c|]; [|done].
  destruct (panelOf (load els) b) as [pn|]; [|done].
  destruct (iconOf (load els) b) as [ic|]; [|done].
  apply andb_prop in Hb as [[_ Hp]%andb_prop Hi].
  apply bool_decide_eq_true in Hp, Hi. by exists c, pn, ic.
Qed.

Lemma contract_distinct b b' :
  b ∈ triggers → b' ∈ triggers → b ≠ b' →
  panelOf (load els) b ≠ panelOf (load els) b'
  ∧ iconOf (load els) b ≠ iconOf (load els) b'.
Proof using contract.
  intros Hb Hb' Hne. unfold dropdownContract in contract.
  apply andb_prop in contract as [[[_ H]%andb_prop _]%andb_prop _].
  unfold itemsDistinct in H.
  apply (forallb_elem_of _ _ _ H) in Hb.
  apply (forallb_elem_of _ _ _ Hb) in Hb'.
  apply orb_prop in Hb' as [Heq|[Hp Hi]%andb_prop].
  - by apply bool_decide_eq_true in Heq.
  - by apply bool_decide_eq_true in Hp, Hi.
Qed.

Lemma contract_closed :
  (∀ n, n ∈ panels → panelOpen (boot els) n = false)
  ∧ (∀ n, n ∈ icons → iconOpen (boot els) n = false).
Proof using contract.
  unfold dropdownContract in contract.
  apply andb_prop in contract as [[_ Hp]%andb_prop Hi].
  unfold panelOpen, iconOpen. rewrite boot_elements. split; intros n Hn.
  - apply (forallb_elem_of _ _ _ Hp) in Hn. by apply negb_true_iff in Hn.
  - apply (forallb_elem_of _ _ _ Hi) in Hn. by apply negb_true_iff in Hn.
Qed.

Lemma resolution_boot b :
  controlsOf (boot els) b = controlsOf (load els) b
  ∧ panelOf (boot els) b = panelOf (load els) b
  ∧ iconOf (boot els) b = iconOf (load els) b.
Proof.
  unfold iconOf, panelOf, controlsOf. by rewrite boot_elements.
Qed.

Lemma resolution_stable q b :
  edits openTokens (boot els) q →
  controlsOf q b = controlsOf (load els) b
  ∧ panelOf q b = panelOf (load els) b
  ∧ iconOf q b = iconOf (load els) b.
Proof.
  intros H. destruct (resolution_boot b) as (<- & <- & <-).
  by rewrite (controlsOf_edits _ _ _ b H), (panelOf_edits _ _ _ b H),
             (iconOf_edits _ _ _ b H).
Qed.

Lemma inStep_boot : inStep els (boot els).
Proof using contract.
  intros b pn ic Hb Hpn Hic.
  destruct (contract_resolves b Hb) as (c & pn' & ic' & _ & Hpn' & Hic' & Hp & Hi).
  assert (pn' = pn) as -> by congruence.
  assert (ic' = ic) as -> by congruence.
  destruct contract_closed as [Hpc Hic0].
  by rewrite (Hpc pn Hp), (Hic0 ic Hi).
Qed.

Lemma inStep_dropdownClick q t :
  edits openTokens (boot els) q → t ∈ triggers → inStep els q →
  inStep els (dropdownClick t panels icons q).2.
Proof using contract.
  intros Hq Ht Inv b pn ic Hb Hpn Hic.
  destruct (contract_resolves t Ht) as (c0 & pn0 & ic0 & Hc0 & Hpn0 & Hic0 & _).
  destruct (resolution_stable q t Hq) as (Ec & Ep & Ei).
  rewrite <- Ec in Hc0. rewrite <- Ei in Hic0.
  destruct (dropdownClick_resolved t panels icons q c0 pn0 ic0 Hc0
              ltac:(by rewrite Ep) Hic0) as (q' & E & T & _).
  rewrite dropdownClick_panelOpen, E. simpl. rewrite T, Ep, Hpn0.
  destruct (decide (b = t)) as [->|Hne].
  - rewrite Ei in Hic0.
    assert (pn0 = pn) as -> by congruence.
    assert (ic0 = ic) as -> by congruence.
    rewrite !bool_decide_eq_true_2 by done.
    f_equal. by apply Inv with t.
  - destruct (contract_distinct b t Hb Ht Hne) as [Dp Di].
    destruct (contract_resolves b Hb)
      as (c & pn' & ic' & _ & Hpn' & Hic' & Hp & Hi).
    assert (pn' = pn) as -> by congruence.
    assert (ic' = ic) as -> by congruence.
    rewrite Ei in Hic0.
    rewrite (bool_decide_eq_false_2 (Some pn0 = Some pn)) by congruence.
    rewrite (bool_decide_eq_false_2 (ic = ic0)) by congruence.
    by rewrite !bool_decide_eq_true_2.
Qed.

Lemma inStep_clicks targets : inStep els (clicks targets (boot els)).
Proof using contract.
  apply (clicks_invariant (inStep els)); [|apply inStep_boot].
  intros q n l Hq Inv Hl.
  destruct (boot_listeners els n l Hl) as [[-> _]|[-> Hn]]; simpl.
  - intros b pn ic Hb Hpn Hic.
    rewrite hamburgerClick_iconOpen, hamburgerClick_panelOpen.
    by apply Inv with b.
  - by apply inStep_dropdownClick.
Qed.

End contract.

(** C10. Under the contract of the markup (the attribute value of every
    trigger is an identifier and resolves to a panel of the group and,
    through the naming convention, to an icon of the document; different
    triggers have different panels and different icons; every panel and
    every icon starts closed), after every click of every finite click
    sequence the icon of each item is open exactly when its panel is. *)
Theorem icon_follows_panel (els : list Element) (targets : list Node)
    (b pn ic : Node) :
  dropdownContract els = true →
  b ∈ select ".dropdown__button" els →
  panelOf (load els) b = Some pn → iconOf (load els) b = Some ic →
  iconOpen (clicks targets (boot els)) ic
  = panelOpen (clicks targets (boot els)) pn.
Proof.
  intros Hcontract Hb Hpn Hic.
  by apply (inStep_clicks els Hcontract targets b).
Qed.

Lemma icon_follows_panel_witness :
  dropdownContract sampleDoc = true
  ∧ panelOf (load sampleDoc) 5 = Some 7
  ∧ iconOf (load sampleDoc) 5 = Some 6
  ∧ iconOpen (clicks [2; 5; 8; 8; 5] (boot sampleDoc)) 6
    = panelOpen (clicks [2; 5; 8; 8; 5] (boot sampleDoc)) 7.
Proof.
  split; [reflexivity|]. split; [reflexivity|]. split; [reflexivity|].
  apply (icon_follows_panel sampleDoc [2; 5; 8; 8; 5] 5 7 6).
  - reflexivity.
  - by apply (bool_decide_unpack _).
  - reflexivity.
  - reflexivity.
Defined.

(** ** The order of the DOM calls of a dropdown click *)

Lemma frames_listedOrderClick b panels icons :
  frames ["dropdown__items--open"; "dropdown__expand--open"]
         (listedOrderClick b panels icons).
Proof. unfold listedOrderClick. solve_frames. Qed.

(** The algorithm in the listed order, when everything resolves. *)
Lemma listedOrderClick_resolved b panels icons p c pn ic :
  controlsOf p b = Some c → panelOf p b = Some pn → iconOf p b = Some ic →
  ∃ p', listedOrderClick b panels icons p = (Normal tt, p')
    ∧ (∀ n, panelOpen p' n
            = if bool_decide (Some pn = Some n) then negb (panelOpen p n)
              else if bool_decide (n ∈ panels) then false
              else panelOpen p n)
    ∧ (∀ n, iconOpen p' n
            = if bool_decide (n = ic) then negb (iconOpen p n)
              else if bool_decide (n ∈ icons) then false
              else iconOpen p n).
Proof.
  intros Hc Hpn Hic.
  pose proof (head_select_lt _ _ _ Hpn) as Lpn.
  unfold iconOf in Hic. rewrite Hc in Hic. simpl in Hic.
  pose proof (head_select_lt _ _ _ Hic) as Lic.
  unfold panelOf in Hpn. rewrite Hc in Hpn. simpl in Hpn.
  unfold controlsOf in Hc.
  unfold listedOrderClick, bind. simpl. rewrite Hc. simpl.
  rewrite Hpn, Hic.
  set (p0 := record _ (record _ (record _ p))).
  destruct (forEach_close_run (Some pn) "dropdown__items--open" panels p0)
    as (p1 & E1 & F1 & T1 & _).
  rewrite E1.
  destruct (forEach_close_run (Some ic) "dropdown__expand--open" icons p1)
    as (p2 & E2 & F2 & T2 & _).
  rewrite E2. simpl. eexists. split; [reflexivity|].
  pose proof (edits_length _ _ _ F1) as L1.
  pose proof (edits_length _ _ _ F2) as L2.
  unfold panelOpen, iconOpen. simpl. split; intros n.
  - rewrite hasToken_alter_frame
      by (intros l; by apply contains_toggle_ne).
    case_bool_decide as Hn.
    + injection Hn as <-.
      rewrite hasToken_toggle_same by (rewrite L2, L1; exact Lpn).
      rewrite (edits_tokens _ _ _ F2) by set_solver.
      rewrite T1. case_bool_decide as Hd; [by destruct Hd|done].
    + rewrite hasToken_alter_other by congruence.
      rewrite (edits_tokens _ _ _ F2) by set_solver.
      rewrite T1. repeat case_bool_decide; try done; exfalso; naive_solver.
  - case_bool_decide as Hn.
    + subst n.
      rewrite hasToken_toggle_same
        by (rewrite length_alter, L2, L1; exact Lic).
      rewrite hasToken_alter_frame
        by (intros l; by apply contains_toggle_ne).
      rewrite T2. rewrite (edits_tokens _ _ _ F1) by set_solver.
      case_bool_decide as Hd; [by destruct Hd|done].
    + rewrite hasToken_alter_other by done.
      rewrite hasToken_alter_frame
        by (intros l; by apply contains_toggle_ne).
      rewrite T2. rewrite (edits_tokens _ _ _ F1) by set_solver.
      repeat case_bool_decide; try done; exfalso; naive_solver.
Qed.

(** The two orders end in the same class state: when attribute, panel and
    icon resolve, every node bears the same tokens after [dropdownClick] as
    after the algorithm run in the listed order. *)
Lemma dropdownClick_same_tokens_as_listed_order b panels icons p c pn ic n tok :
  controlsOf p b = Some c → panelOf p b = Some pn → iconOf p b = Some ic →
  hasToken (elements (dropdownClick b panels icons p).2) n tok
  = hasToken (elements (listedOrderClick b panels icons p).2) n tok.
Proof.
  intros Hc Hpn Hic.
  destruct (listedOrderClick_resolved b panels icons p c pn ic Hc Hpn Hic)
    as (q' & Eq & Pq & Iq).
  destruct (dropdownClick_resolved b panels icons p c pn ic Hc Hpn Hic)
    as (p' & Ep & Ip & _).
  pose proof (dropdownClick_panelOpen b panels icons p n) as Pp.
  pose proof (frames_dropdownClick b panels icons p) as Fp.
  pose proof (frames_listedOrderClick b panels icons p) as Fq.
  rewrite Ep in *. rewrite Eq in *. simpl in *.
  destruct (decide (tok = "dropdown__items--open")) as [->|Hp].
  { specialize (Pq n). unfold panelOpen in Pp, Pq.
    rewrite Pp, Pq, Hpn. done. }
  destruct (decide (tok = "dropdown__expand--open")) as [->|Hi].
  { specialize (Ip n). specialize (Iq n). unfold iconOpen in Ip, Iq.
    by rewrite Ip, Iq. }
  rewrite (edits_tokens _ _ _ Fp), (edits_tokens _ _ _ Fq); set_solver.
Qed.

(** C6 as stated fails: with item A open, the click handled by B's trigger
    flips B's panel before it closes A's icon. *)
Lemma flip_precedes_icon_closing_counterexample :
  panelOf (clicks [2] samplePage) 5 = Some 7
  ∧ iconOf (clicks [2] samplePage) 5 = Some 6
  ∧ callsDuring (dropdownClick 5 [4; 7; 10] [3; 6; 9]) (clicks [2] samplePage)
    = [CallGetAttribute 5 "aria-controls";
       CallQuerySelector "#b-dropdown-items";
       CallContains 4 "dropdown__items--open";
       CallRemove 4 "dropdown__items--open";
       CallContains 10 "dropdown__items--open";
       CallToggle 7 "dropdown__items--open";
       CallQuerySelector "#b-dropdown-expand";
       CallContains 3 "dropdown__expand--open";
       CallRemove 3 "dropdown__expand--open";
       CallContains 9 "dropdown__expand--open";
       CallToggle 6 "dropdown__expand--open"]
  ∧ closingBeforeFlips
      (callsDuring (dropdownClick 5 [4; 7; 10] [3; 6; 9])
                   (clicks [2] samplePage)) = false
  ∧ closingBeforeFlips
      (callsDuring (listedOrderClick 5 [4; 7; 10] [3; 6; 9])
                   (clicks [2] samplePage)) = true.
Proof. repeat split; reflexivity. Qed.

(** C6, amended. When the attribute value is an identifier and panel [pn]
    and icon [ic] resolve, the handler makes its calls in this order: it
    reads the attribute and looks the panel up, closes every other open
    panel, flips [pn], only then looks the icon up, closes every other open
    icon, and flips [ic].  Each flip comes after the sibling closing of its
    own kind; the flip of the panel comes before the closing of the
    icons. *)
Theorem dropdownClick_call_order (p : Page) (b : Node)
    (panels icons : list Node) (c : string) (pn ic : Node) :
  controlsOf p b = Some c → cssIdent c = true →
  panelOf p b = Some pn → iconOf p b = Some ic →
  NoDup panels → NoDup icons →
  callsDuring (dropdownClick b panels icons) p
  = [CallGetAttribute b "aria-controls"; CallQuerySelector ("#" +:+ c)]
    ++ closeCalls (Some pn) "dropdown__items--open" (elements p) panels
    ++ [CallToggle pn "dropdown__items--open";
        CallQuerySelector ("#" +:+ JsString.replace "items" "expand" c)]
    ++ closeCalls (Some ic) "dropdown__expand--open" (elements p) icons
    ++ [CallToggle ic "dropdown__expand--open"].
Proof.
  intros Hc _ Hpn Hic Hnp Hni. unfold callsDuring.
  destruct (dropdownClick_resolved b panels icons p c pn ic Hc Hpn Hic)
    as (p' & E & _ & C).
  rewrite E. simpl. rewrite (C Hnp Hni). apply drop_app_length.
Qed.

Lemma dropdownClick_call_order_witness :
  controlsOf samplePage 2 = Some "a-dropdown-items"
  ∧ cssIdent "a-dropdown-items" = true
  ∧ panelOf samplePage 2 = Some 4
  ∧ iconOf samplePage 2 = Some 3
  ∧ callsDuring (dropdownClick 2 [4; 7; 10] [3; 6; 9]) samplePage
    = [CallGetAttribute 2 "aria-controls";
       CallQuerySelector ("#" +:+ "a-dropdown-items")]
      ++ closeCalls (Some 4) "dropdown__items--open" (elements samplePage)
                    [4; 7; 10]
      ++ [CallToggle 4 "dropdown__items--open";
          CallQuerySelector
            ("#" +:+ JsString.replace "items" "expand" "a-dropdown-items")]
      ++ closeCalls (Some 3) "dropdown__expand--open" (elements samplePage)
                    [3; 6; 9]
      ++ [CallToggle 3 "dropdown__expand--open"].
Proof.
  split; [reflexivity|].
  split; [reflexivity|]. split; [reflexivity|]. split; [reflexivity|].
  apply (dropdownClick_call_order samplePage 2 [4; 7; 10] [3; 6; 9]
           "a-dropdown-items" 4 3); try reflexivity.
  - apply (bool_decide_unpack _). vm_compute. exact I.
  - apply (bool_decide_unpack _). vm_compute. exact I.
Defined.

(** ** Resolution of the icon *)

Lemma app_String c s t : String c s +:+ t = String c (s +:+ t).
Proof. reflexivity. Qed.

Lemma app_empty s : "" +:+ s = s.
Proof. reflexivity. Qed.

Lemma prefix_drop pat s :
  String.prefix pat s = true → s = pat +:+ JsString.drop (String.length pat) s.
Proof.
  revert s. induction pat as [|a pat IH]; intros s H.
  - by rewrite app_empty.
  - destruct s as [|a' s]; [done|]. cbn in H.
    destruct (Ascii.ascii_dec a a') as [->|]; [|done].
    rewrite app_String. cbn. f_equal. by apply IH.
Qed.

Lemma replace_unfold pat rep s :
  JsString.replace pat rep s
  = if String.prefix pat s
    then rep +:+ JsString.drop (String.length pat) s
    else match s with
         | EmptyString => EmptyString
         | String c r => String c (JsString.replace pat rep r)
         end.
Proof. by destruct s. Qed.

Lemma includes_unfold pat s :
  JsString.includes pat s
  = if String.prefix pat s then true
    else match s with
         | EmptyString => false
         | String _ r => JsString.includes pat r
         end.
Proof. by destruct s. Qed.

(** [replace] rewrites an occurrence of the pattern and keeps what comes
    before and after it. *)
Lemma replace_includes pat rep s :
  JsString.includes pat s = true →
  ∃ pre post,
    s = pre +:+ pat +:+ post ∧ JsString.replace pat rep s = pre +:+ rep +:+ post.
Proof.
  induction s as [|a s IH]; rewrite includes_unfold, replace_unfold;
    destruct (String.prefix pat _) eqn:E; try done.
  - intros _. exists "", (JsString.drop (String.length pat) "").
    rewrite !app_empty. split; [|done]. by apply prefix_drop.
  - intros _. exists "", (JsString.drop (String.length pat) (String a s)).
    rewrite !app_empty. split; [|done]. by apply prefix_drop.
  - intros H. destruct (IH H) as (pre & post & Hs & Hr).
    exists (String a pre), post. rewrite !app_String, <- Hs, <- Hr. done.
Qed.

Lemma head_select_id i els n :
  head (select ("#" +:+ i) els) = Some n → els !! n ≫= el_id = Some i.
Proof.
  intros H. apply head_select_elem, elem_of_select in H.
  unfold matchesNode in H. destruct (els !! n) as [e|]; [|done].
  simpl in *. by apply bool_decide_eq_true in H.
Qed.

Lemma iconPhase_unresolved c icons p :
  head (select ("#" +:+ JsString.replace "items" "expand" c) (elements p))
    = None →
  (iconPhase (Some c) icons p).1 = Throw TypeError.
Proof.
  intros Hnone. unfold iconPhase, bind. simpl. rewrite Hnone.
  destruct (forEach_close_run None "dropdown__expand--open" icons
              (record (CallQuerySelector
                 ("#" +:+ JsString.replace "items" "expand" c)) p))
    as (p1 & -> & _).
  reflexivity.
Qed.

Lemma replace_absent pat rep s :
  JsString.includes pat s = false → JsString.replace pat rep s = s.
Proof.
  induction s as [|a s IH]; rewrite includes_unfold, replace_unfold;
    destruct (String.prefix pat _); try done.
  intros H. by rewrite IH.
Qed.

Lemma allNameChars_app s t :
  allNameChars (s +:+ t) = allNameChars s && allNameChars t.
Proof.
  induction s as [|a s IH]; [done|].
  rewrite app_String. cbn [allNameChars]. rewrite IH.
  by rewrite andb_assoc.
Qed.

(** Replacing [items] by [expand] in an identifier gives an identifier:
    the selector the handler builds for the icon is an id selector when
    the one it builds for the panel is. *)
Lemma cssIdent_replace c :
  cssIdent c = true → cssIdent (JsString.replace "items" "expand" c) = true.
Proof.
  destruct (JsString.includes "items" c) eqn:Hinc.
  2:{ by rewrite replace_absent. }
  destruct (replace_includes "items" "expand" c Hinc)
    as (pre & post & -> & ->).
  unfold cssIdent. rewrite !allNameChars_app.
  intros [Hstart [Hpre [_ Hpost]%andb_prop]%andb_prop]%andb_prop.
  rewrite Hpre, Hpost. rewrite andb_true_r.
  destruct pre as [|a pre]; [done|].
  rewrite app_String in *. cbn [identStart] in *.
  destruct (isNameStart a); [done|].
  destruct (nat_of_ascii a =? 45); [|done].
  destruct pre as [|a' pre]; [done|].
  by rewrite app_String in *.
Qed.

(** C7. The handler of a trigger whose attribute value is an identifier
    [c] looks the icon up as the first element whose id is [c] with [items]
    replaced by [expand], which is an identifier again: when there is such
    an element, the handler completes and flips the open token of that
    element; when there is none, it throws.  For every panel id that holds
    [items], the id looked up is the one the naming convention gives. *)
Theorem icon_resolution :
  (∀ p b panels icons c pn,
     controlsOf p b = Some c → cssIdent c = true → panelOf p b = Some pn →
     cssIdent (JsString.replace "items" "expand" c) = true
     ∧ match head (select ("#" +:+ JsString.replace "items" "expand" c)
                        (elements p)) with
     | Some ic =>
         elements p !! ic ≫= el_id
           = Some (JsString.replace "items" "expand" c)
         ∧ (dropdownClick b panels icons p).1 = Normal tt
         ∧ iconOpen (dropdownClick b panels icons p).2 ic
           = negb (iconOpen p ic)
     | None => (dropdownClick b panels icons p).1 = Throw TypeError
     end)
  ∧ (∀ c, JsString.includes "items" c = true →
          iconIdConvention c (JsString.replace "items" "expand" c)).
Proof.
  split.
  - intros p b panels icons c pn Hc Hident Hpn.
    split; [by apply cssIdent_replace|].
    destruct (head _) as [ic|] eqn:Hic.
    + assert (iconOf p b = Some ic) as Hic'
        by (unfold iconOf; by rewrite Hc).
      destruct (dropdownClick_resolved b panels icons p c pn ic Hc Hpn Hic')
        as (p' & E & T & _).
      split; [by apply head_select_id|]. rewrite E. split; [done|].
      simpl. rewrite T. by rewrite bool_decide_eq_true_2.
    + rewrite dropdownClick_phases. unfold bind.
      destruct (panelPhase_run b panels p) as (p1 & E1 & R1 & _).
      pose proof (frames_panelPhase b panels p) as F1.
      rewrite Hpn, Hc in R1.
      destruct (panelPhase b panels p) as [r q]; simpl in E1, R1, F1.
      subst q r. apply iconPhase_unresolved.
      by rewrite (select_edits _ _ p p1 F1 (hash_selector_stable _ _)).
  - intros c Hc. by apply replace_includes.
Qed.

Lemma icon_resolution_witness :
  cssIdent "b-dropdown-items" = true
  ∧ (elements samplePage !! 6 ≫= el_id = Some "b-dropdown-expand"
     ∧ (dropdownClick 5 [4; 7; 10] [3; 6; 9] samplePage).1 = Normal tt
     ∧ iconOpen (dropdownClick 5 [4; 7; 10] [3; 6; 9] samplePage).2 6
       = negb (iconOpen samplePage 6))
  ∧ iconIdConvention "b-dropdown-items" "b-dropdown-expand".
Proof.
  destruct icon_resolution as [Hres Hconv].
  split; [reflexivity|]. split.
  - apply (Hres samplePage 5 [4; 7; 10] [3; 6; 9] "b-dropdown-items" 7);
      reflexivity.
  - apply (Hconv "b-dropdown-items"). reflexivity.
Defined.

(** ** Initialisation of the hamburger toggle *)

Lemma hamburgerClick_calls p :
  calls (hamburgerClick p).2
  = calls p
    ++ CallQuerySelector "#site-nav-items"
       :: match navPanelOf p with
          | Some np =>
              CallToggle np "site-nav__items--open"
              :: match hamburgerButton p with
                 | Some hb => [CallToggle hb "hamburger--open"]
                 | None => []
                 end
          | None => []
          end.
Proof.
  unfold hamburgerClick, bind. simpl. fold (navPanelOf p).
  destruct (navPanelOf p) as [np|]; simpl; [|done].
  destruct (hamburgerButton p); simpl; by rewrite <- ?app_assoc.
Qed.

(** C8 as stated fails: on a page with the trigger and no navigation
    panel, initialisation completes, having looked up the trigger only, and
    the failure comes with the click. *)
Lemma initialisation_without_panel_counterexample :
  navPanelOf (load noPanelDoc) = None
  ∧ initialiseHamburger (load noPanelDoc)
    = (Normal tt,
       {| elements := noPanelDoc; hamburgerButton := Some 0;
          listeners := [(0, hamburgerListener)];
          calls := [CallQuerySelector "#hamburger-button";
                    CallAddEventListener 0 "click"] |})
  ∧ hamburgerClick (initialiseHamburger (load noPanelDoc)).2
    = (Throw TypeError,
       {| elements := noPanelDoc; hamburgerButton := Some 0;
          listeners := [(0, hamburgerListener)];
          calls := [CallQuerySelector "#hamburger-button";
                    CallAddEventListener 0 "click";
                    CallQuerySelector "#site-nav-items"] |}).
Proof. repeat split; reflexivity. Qed.

(** C8, amended. Initialisation looks up the trigger, once, and nothing
    else: with the trigger present it binds the handler and completes,
    whether or not the navigation panel exists; with the trigger absent it
    throws where it binds, and binds nothing.  The navigation panel is
    looked up by the handler, as the first call of every click; when the
    panel is absent the click throws there and changes no class. *)
Theorem hamburger_initialisation :
  (∀ els,
     match head (select "#hamburger-button" els) with
     | Some hb =>
         initialiseHamburger (load els)
         = (Normal tt,
            {| elements := els; hamburgerButton := Some hb;
               listeners := [(hb, hamburgerListener)];
               calls := [CallQuerySelector "#hamburger-button";
                         CallAddEventListener hb "click"] |})
     | None =>
         initialiseHamburger (load els)
         = (Throw TypeError,
            {| elements := els; hamburgerButton := None; listeners := [];
               calls := [CallQuerySelector "#hamburger-button"] |})
     end)
  ∧ (∀ p,
       head (callsDuring hamburgerClick p)
         = Some (CallQuerySelector "#site-nav-items")
       ∧ match navPanelOf p with
         | Some _ => True
         | None =>
             hamburgerClick p
             = (Throw TypeError, record (CallQuerySelector "#site-nav-items") p)
         end).
Proof.
  split.
  - intros els. rewrite initialiseHamburger_run. simpl.
    by destruct (head _).
  - intros p. split.
    + unfold callsDuring. rewrite hamburgerClick_calls.
      by rewrite drop_app_length.
    + unfold navPanelOf, hamburgerClick, bind. simpl.
      by destruct (head _).
Qed.

(** * Further properties of the script *)

(** ** The dropdown handler in every case *)

Lemma iconPhase_unresolved_run c icons p :
  head (select ("#" +:+ JsString.replace "items" "expand" c) (elements p))
    = None →
  ∃ p', iconPhase (Some c) icons p = (Throw TypeError, p')
    ∧ ∀ n, iconOpen p' n
           = if bool_decide (n ∈ icons) then false else iconOpen p n.
Proof.
  intros Hnone. unfold iconPhase, bind. simpl. rewrite Hnone.
  destruct (forEach_close_run None "dropdown__expand--open" icons
              (record (CallQuerySelector
                 ("#" +:+ JsString.replace "items" "expand" c)) p))
    as (p1 & -> & _ & T1 & _).
  simpl. eexists. split; [reflexivity|]. intros n. unfold iconOpen.
  rewrite T1. simpl.
  repeat case_bool_decide; try done; exfalso; naive_solver.
Qed.

(** The icons after a click on trigger [b]: the icon loop and the flip run
    only when the panel resolved and the attribute is present. *)
Lemma dropdownClick_iconOpen b panels icons p n :
  iconOpen (dropdownClick b panels icons p).2 n
  = match panelOf p b, controlsOf p b with
    | Some _, Some _ =>
        if bool_decide (iconOf p b = Some n) then negb (iconOpen p n)
        else if bool_decide (n ∈ icons) then false
        else iconOpen p n
    | _, _ => iconOpen p n
    end.
Proof.
  rewrite dropdownClick_phases. unfold bind.
  destruct (panelPhase_run b panels p) as (p1 & E1 & R1 & _).
  pose proof (frames_panelPhase b panels p) as F1.
  assert (∀ m, iconOpen p1 m = iconOpen p m) as I1.
  { intros m. subst p1. apply (edits_tokens _ _ _ F1). set_solver. }
  destruct (panelPhase b panels p) as [r q]; simpl in E1, R1, F1. subst q r.
  destruct (panelOf p b) as [pn|] eqn:Hpn; [|by rewrite <- I1].
  unfold iconOf. destruct (controlsOf p b) as [c|] eqn:Hc; simpl.
  2:{ by rewrite <- I1. }
  rewrite <- (select_edits _ _ p p1 F1 (hash_selector_stable _ _)).
  destruct (head (select _ (elements p1))) as [ic|] eqn:Hic.
  - destruct (iconPhase_run c icons p1 ic Hic) as (p2 & -> & T2 & _).
    simpl. rewrite T2, !I1.
    repeat case_bool_decide; try done; exfalso; naive_solver.
  - destruct (iconPhase_unresolved_run c icons p1 Hic) as (p2 & -> & T2).
    simpl. rewrite T2, !I1.
    repeat case_bool_decide; done.
Qed.

Lemma dropdownClick_completion b panels icons p :
  (dropdownClick b panels icons p).1
  = match panelOf p b, iconOf p b with
    | Some _, Some _ => Normal tt
    | _, _ => Throw TypeError
    end.
Proof.
  rewrite dropdownClick_phases. unfold bind.
  destruct (panelPhase_run b panels p) as (p1 & E1 & R1 & _).
  pose proof (frames_panelPhase b panels p) as F1.
  destruct (panelPhase b panels p) as [r q]; simpl in E1, R1, F1. subst q r.
  destruct (panelOf p b) as [pn|] eqn:Hpn; [|done].
  unfold iconOf. destruct (controlsOf p b) as [c|] eqn:Hc; simpl; [|done].
  rewrite <- (select_edits _ _ p p1 F1 (hash_selector_stable _ _)).
  destruct (head (select _ (elements p1))) as [ic|] eqn:Hic.
  - by destruct (iconPhase_run c icons p1 ic Hic) as (p2 & -> & _).
  - by destruct (iconPhase_unresolved_run c icons p1 Hic) as (p2 & -> & _).
Qed.

(** X3. For a trigger whose attribute is missing or holds an identifier,
    the handler completes without an exception exactly when the trigger
    resolves to a panel and to an icon, and throws a [TypeError]
    otherwise. *)
Theorem dropdownClick_completes_iff (p : Page) (b : Node)
    (panels icons : list Node) :
  validControls (controlsOf p b) = true →
  ((dropdownClick b panels icons p).1 = Normal tt
   ↔ is_Some (panelOf p b) ∧ is_Some (iconOf p b))
  ∧ ((dropdownClick b panels icons p).1 = Normal tt
     ∨ (dropdownClick b panels icons p).1 = Throw TypeError).
Proof.
  intros _. rewrite dropdownClick_completion.
  destruct (panelOf p b), (iconOf p b); split; try (by left); try (by right);
    split; try done; try (intros [[? ?] [? ?]]; done); by intros _; split.
Qed.

Lemma dropdownClick_completes_iff_witness :
  validControls (controlsOf (boot noIconDoc) 1) = true
  ∧ iconOf (boot noIconDoc) 1 = None
  ∧ (dropdownClick 1 [2; 5] [4] (boot noIconDoc)).1 = Throw TypeError.
Proof.
  split; [reflexivity|]. split; [reflexivity|].
  destruct (dropdownClick_completes_iff (boot noIconDoc) 1 [2; 5] [4])
    as [[Hto _] [Hn|Ht]]; [reflexivity| |exact Ht].
  destruct (Hto Hn) as [_ [ic Hic]]. discriminate Hic.
Defined.

(** X4. When the attribute of the trigger is missing or holds an
    identifier, and no element bears the id it names, the handler throws a
    [TypeError], having closed every panel it holds and changed no other
    panel and no icon. *)
Theorem unresolved_panel_closes_group (p : Page) (b : Node)
    (panels icons : list Node) :
  validControls (controlsOf p b) = true →
  panelOf p b = None →
  (dropdownClick b panels icons p).1 = Throw TypeError
  ∧ (∀ n, n ∈ panels → panelOpen (dropdownClick b panels icons p).2 n = false)
  ∧ (∀ n, n ∉ panels →
          panelOpen (dropdownClick b panels icons p).2 n = panelOpen p n)
  ∧ (∀ n, iconOpen (dropdownClick b panels icons p).2 n = iconOpen p n).
Proof.
  intros _ Hnone. split; [|split; [|split]].
  - by rewrite dropdownClick_completion, Hnone.
  - intros n Hn. rewrite dropdownClick_panelOpen, Hnone.
    rewrite bool_decide_eq_false_2 by done.
    by rewrite bool_decide_eq_true_2.
  - intros n Hn. rewrite dropdownClick_panelOpen, Hnone.
    rewrite bool_decide_eq_false_2 by done.
    by rewrite bool_decide_eq_false_2.
  - intros n. by rewrite dropdownClick_iconOpen, Hnone.
Qed.

Lemma unresolved_panel_closes_group_witness :
  validControls (controlsOf (boot noIconDoc) 6) = true
  ∧ panelOf (boot noIconDoc) 6 = None
  ∧ panelOpen (boot noIconDoc) 5 = true
  ∧ (dropdownClick 6 [2; 5] [4] (boot noIconDoc)).1 = Throw TypeError
  ∧ panelOpen (dropdownClick 6 [2; 5] [4] (boot noIconDoc)).2 5 = false
  ∧ iconOpen (dropdownClick 6 [2; 5] [4] (boot noIconDoc)).2 4 = true.
Proof.
  split; [reflexivity|]. split; [reflexivity|]. split; [reflexivity|].
  destruct (unresolved_panel_closes_group (boot noIconDoc) 6 [2; 5] [4])
    as (Hthrow & Hin & _ & Hicon); [reflexivity|reflexivity|].
  split; [exact Hthrow|]. split.
  - apply Hin. by apply (bool_decide_unpack _).
  - rewrite Hicon. reflexivity.
Defined.

(** X5. When the attribute value is an identifier, the panel resolves and
    no element bears the id derived for the icon, the handler throws a
    [TypeError] after the panel work is done: the panel has been flipped,
    and every icon it holds ends closed, no icon having been flipped. *)
Theorem unresolved_icon_closes_icons (p : Page) (b : Node)
    (panels icons : list Node) (c : string) (pn : Node) :
  controlsOf p b = Some c → cssIdent c = true →
  panelOf p b = Some pn → iconOf p b = None →
  (dropdownClick b panels icons p).1 = Throw TypeError
  ∧ panelOpen (dropdownClick b panels icons p).2 pn = negb (panelOpen p pn)
  ∧ (∀ n, n ∈ icons → iconOpen (dropdownClick b panels icons p).2 n = false)
  ∧ (∀ n, n ∉ icons →
          iconOpen (dropdownClick b panels icons p).2 n = iconOpen p n).
Proof.
  intros Hc _ Hpn Hic. split; [|split; [|split]].
  - by rewrite dropdownClick_completion, Hpn, Hic.
  - rewrite dropdownClick_panelOpen. by rewrite bool_decide_eq_true_2.
  - intros n Hn. rewrite dropdownClick_iconOpen, Hpn, Hc, Hic.
    rewrite bool_decide_eq_false_2 by done.
    by rewrite bool_decide_eq_true_2.
  - intros n Hn. rewrite dropdownClick_iconOpen, Hpn, Hc, Hic.
    rewrite bool_decide_eq_false_2 by done.
    by rewrite bool_decide_eq_false_2.
Qed.

Lemma unresolved_icon_closes_icons_witness :
  cssIdent "a-dropdown-items" = true
  ∧ iconOf (boot noIconDoc) 1 = None
  ∧ iconOpen (boot noIconDoc) 4 = true
  ∧ (dropdownClick 1 [2; 5] [4] (boot noIconDoc)).1 = Throw TypeError
  ∧ panelOpen (dropdownClick 1 [2; 5] [4] (boot noIconDoc)).2 2 = true
  ∧ iconOpen (dropdownClick 1 [2; 5] [4] (boot noIconDoc)).2 4 = false.
Proof.
  split; [reflexivity|]. split; [reflexivity|]. split; [reflexivity|].
  destruct (unresolved_icon_closes_icons (boot noIconDoc) 1 [2; 5] [4]
              "a-dropdown-items" 2)
    as (Hthrow & Hpanel & Hin & _); try reflexivity.
  split; [exact Hthrow|]. split.
  - rewrite Hpanel. reflexivity.
  - apply Hin. by apply (bool_decide_unpack _).
Defined.

(** X6. A trigger without association attribute: the handler looks up the
    element whose id is the text [null] as its panel, and always throws,
    at the latest where it calls [replace] on the missing value; no icon
    changes. *)
Theorem missing_attribute_looks_up_null (p : Page) (b : Node)
    (panels icons : list Node) :
  controlsOf p b = None →
  panelOf p b = head (select "#null" (elements p))
  ∧ (dropdownClick b panels icons p).1 = Throw TypeError
  ∧ (∀ n, iconOpen (dropdownClick b panels icons p).2 n = iconOpen p n)
  ∧ (∀ n, head (select "#null" (elements p)) = Some n →
          panelOpen (dropdownClick b panels icons p).2 n
          = negb (panelOpen p n)).
Proof.
  intros Hc.
  assert (panelOf p b = head (select "#null" (elements p))) as Hp
    by (unfold panelOf; by rewrite Hc).
  split; [done|]. split; [|split].
  - rewrite dropdownClick_completion. unfold iconOf. rewrite Hc. simpl.
    by destruct (panelOf p b).
  - intros n. rewrite dropdownClick_iconOpen, Hc. by destruct (panelOf p b).
  - intros n Hn. rewrite dropdownClick_panelOpen, Hp.
    by rewrite bool_decide_eq_true_2.
Qed.

Lemma missing_attribute_looks_up_null_witness :
  controlsOf (boot nullIdDoc) 1 = None
  ∧ panelOf (boot nullIdDoc) 1 = Some 2
  ∧ (dropdownClick 1 [2] [3] (boot nullIdDoc)).1 = Throw TypeError
  ∧ iconOpen (dropdownClick 1 [2] [3] (boot nullIdDoc)).2 3 = true
  ∧ panelOpen (dropdownClick 1 [2] [3] (boot nullIdDoc)).2 2 = true.
Proof.
  split; [reflexivity|].
  destruct (missing_attribute_looks_up_null (boot nullIdDoc) 1 [2] [3])
    as (Hp & Hthrow & Hicon & Hpanel); [reflexivity|].
  split; [rewrite Hp; reflexivity|]. split; [exact Hthrow|]. split.
  - rewrite Hicon. reflexivity.
  - rewrite (Hpanel 2); reflexivity.
Defined.

(** X7. The handler of a trigger whose attribute is missing or holds an
    identifier never opens anything but its own target: a panel that is
    closed before the run and open after it is the element bearing the id
    the attribute names, and an icon that is closed before and open after
    is the element bearing the id derived for the icon. *)
Theorem dropdownClick_opens_only_target (p : Page) (b : Node)
    (panels icons : list Node) (n : Node) :
  validControls (controlsOf p b) = true →
  (panelOpen p n = false →
   panelOpen (dropdownClick b panels icons p).2 n = true →
   panelOf p b = Some n)
  ∧ (iconOpen p n = false →
     iconOpen (dropdownClick b panels icons p).2 n = true →
     iconOf p b = Some n).
Proof.
  intros _. split.
  - intros Hbefore. rewrite dropdownClick_panelOpen, Hbefore.
    repeat case_bool_decide; done.
  - intros Hbefore. rewrite dropdownClick_iconOpen, Hbefore.
    destruct (panelOf p b); [|done].
    destruct (controlsOf p b); [|done].
    repeat case_bool_decide; done.
Qed.

Lemma dropdownClick_opens_only_target_witness :
  validControls (controlsOf samplePage 2) = true
  ∧ panelOpen samplePage 4 = false
  ∧ panelOpen (dropdownClick 2 [4; 7; 10] [3; 6; 9] samplePage).2 4 = true
  ∧ panelOf samplePage 2 = Some 4
  ∧ iconOf samplePage 2 = Some 3.
Proof.
  split; [reflexivity|]. split; [reflexivity|]. split; [reflexivity|].
  destruct (dropdownClick_opens_only_target samplePage 2 [4; 7; 10] [3; 6; 9] 4)
    as [Hp _]; [reflexivity|].
  destruct (dropdownClick_opens_only_target samplePage 2 [4; 7; 10] [3; 6; 9] 3)
    as [_ Hi]; [reflexivity|].
  split; [apply Hp|apply Hi]; reflexivity.
Defined.

(** ** Two clicks on one trigger *)

(** X8. Two runs in a row of the handler of a trigger whose attribute
    value is an identifier and resolves do not undo the first run
    entirely: the panel and the icon of the trigger are back in
    the state they had, and every other panel and icon the handler holds
    is closed, whatever it was before. *)
Theorem double_click_restores_target_only (p : Page) (b : Node)
    (panels icons : list Node) (pn ic : Node) :
  validControls (controlsOf p b) = true →
  panelOf p b = Some pn → iconOf p b = Some ic →
  let p2 := (dropdownClick b panels icons (dropdownClick b panels icons p).2).2 in
  panelOpen p2 pn = panelOpen p pn
  ∧ iconOpen p2 ic = iconOpen p ic
  ∧ (∀ n, n ∈ panels → n ≠ pn → panelOpen p2 n = false)
  ∧ (∀ n, n ∈ icons → n ≠ ic → iconOpen p2 n = false).
Proof.
  intros _ Hpn Hic p2. subst p2.
  pose proof (frames_dropdownClick b panels icons p) as F.
  assert (∃ c, controlsOf p b = Some c) as [c Hc].
  { unfold iconOf in Hic. destruct (controlsOf p b); [by eexists|done]. }
  set (p1 := (dropdownClick b panels icons p).2) in *.
  assert (panelOf p1 b = Some pn) as Hpn1
    by (by rewrite (panelOf_edits _ _ _ b F)).
  assert (iconOf p1 b = Some ic) as Hic1
    by (by rewrite (iconOf_edits _ _ _ b F)).
  assert (controlsOf p1 b = Some c) as Hc1
    by (by rewrite (controlsOf_edits _ _ _ b F)).
  split; [|split; [|split]].
  - rewrite dropdownClick_panelOpen, Hpn1.
    rewrite bool_decide_eq_true_2 by done. subst p1.
    rewrite dropdownClick_panelOpen, Hpn.
    rewrite bool_decide_eq_true_2 by done. apply negb_involutive.
  - rewrite dropdownClick_iconOpen, Hpn1, Hc1, Hic1.
    rewrite bool_decide_eq_true_2 by done. subst p1.
    rewrite dropdownClick_iconOpen, Hpn, Hc, Hic.
    rewrite bool_decide_eq_true_2 by done. apply negb_involutive.
  - intros n Hn Hne. rewrite dropdownClick_panelOpen, Hpn1.
    rewrite bool_decide_eq_false_2 by congruence.
    by rewrite bool_decide_eq_true_2.
  - intros n Hn Hne. rewrite dropdownClick_iconOpen, Hpn1, Hc1, Hic1.
    rewrite bool_decide_eq_false_2 by congruence.
    by rewrite bool_decide_eq_true_2.
Qed.

Lemma double_click_restores_target_only_witness :
  validControls (controlsOf (clicks [2] samplePage) 5) = true
  ∧ panelOpen (clicks [2] samplePage) 4 = true
  ∧ panelOpen
      (dropdownClick 5 [4; 7; 10] [3; 6; 9]
         (dropdownClick 5 [4; 7; 10] [3; 6; 9] (clicks [2] samplePage)).2).2 7
    = panelOpen (clicks [2] samplePage) 7
  ∧ panelOpen
      (dropdownClick 5 [4; 7; 10] [3; 6; 9]
         (dropdownClick 5 [4; 7; 10] [3; 6; 9] (clicks [2] samplePage)).2).2 4
    = false.
Proof.
  split; [reflexivity|]. split; [reflexivity|].
  destruct (double_click_restores_target_only (clicks [2] samplePage) 5
              [4; 7; 10] [3; 6; 9] 7 6)
    as (Hpanel & _ & Hothers & _); try reflexivity.
  split; [exact Hpanel|]. apply Hothers; [|lia].
  by apply (bool_decide_unpack _).
Defined.

(** ** The id of the icon *)

Lemma length_app_string s t :
  String.length (s +:+ t) = String.length s + String.length t.
Proof.
  induction s as [|a s IH]; [done|].
  rewrite app_String. cbn. by rewrite IH.
Qed.

Lemma replace_length pat rep s :
  JsString.includes pat s = true →
  String.length (JsString.replace pat rep s) + String.length pat
  = String.length s + String.length rep.
Proof.
  intros H. destruct (replace_includes pat rep s H) as (pre & post & -> & ->).
  rewrite !length_app_string. lia.
Qed.

(** X10. When the attribute value of a trigger is an identifier that does
    not hold [items], the replacement leaves it as it is and the handler
    takes the panel itself for the icon: the two lookups find the same
    element, and when they find one the handler completes, having flipped
    both open tokens on that one element. *)
Theorem icon_is_panel_without_items (p : Page) (b : Node)
    (panels icons : list Node) (c : string) :
  controlsOf p b = Some c → cssIdent c = true →
  JsString.includes "items" c = false →
  iconOf p b = panelOf p b
  ∧ ∀ pn, panelOf p b = Some pn →
      (dropdownClick b panels icons p).1 = Normal tt
      ∧ panelOpen (dropdownClick b panels icons p).2 pn = negb (panelOpen p pn)
      ∧ iconOpen (dropdownClick b panels icons p).2 pn = negb (iconOpen p pn).
Proof.
  intros Hc _ Hnone.
  assert (iconOf p b = panelOf p b) as E.
  { unfold iconOf, panelOf. rewrite Hc. simpl. by rewrite replace_absent. }
  split; [exact E|]. intros pn Hpn.
  rewrite dropdownClick_completion, dropdownClick_panelOpen,
          dropdownClick_iconOpen, E, Hpn, Hc.
  by rewrite !(bool_decide_eq_true_2 (Some pn = Some pn)).
Qed.

Lemma icon_is_panel_without_items_witness :
  controlsOf (boot noItemsDoc) 1 = Some "menu-list"
  ∧ cssIdent "menu-list" = true
  ∧ JsString.includes "items" "menu-list" = false
  ∧ iconOf (boot noItemsDoc) 1 = Some 2
  ∧ hasToken (elements (dropdownClick 1 [2] [] (boot noItemsDoc)).2) 2
             "dropdown__items--open" = true
  ∧ hasToken (elements (dropdownClick 1 [2] [] (boot noItemsDoc)).2) 2
             "dropdown__expand--open" = true.
Proof.
  split; [reflexivity|]. split; [reflexivity|]. split; [reflexivity|].
  destruct (icon_is_panel_without_items (boot noItemsDoc) 1 [2] [] "menu-list")
    as [E H]; [reflexivity|reflexivity|reflexivity|].
  split; [exact E|].
  destruct (H 2) as (_ & Hp & Hi); [reflexivity|].
  split; [exact Hp|exact Hi].
Defined.

(** X11. When the attribute value is an identifier that holds [items], the
    id the handler looks the icon up with is one character longer than the
    panel id, so the icon it finds is never the panel: when both lookups
    find an element, the handler completes, having flipped the panel token
    on the one and the icon token on the other. *)
Theorem icon_differs_from_panel_with_items (p : Page) (b : Node)
    (panels icons : list Node) (c : string) (pn ic : Node) :
  controlsOf p b = Some c → cssIdent c = true →
  JsString.includes "items" c = true →
  panelOf p b = Some pn → iconOf p b = Some ic →
  String.length (JsString.replace "items" "expand" c) = S (String.length c)
  ∧ pn ≠ ic
  ∧ (dropdownClick b panels icons p).1 = Normal tt
  ∧ panelOpen (dropdownClick b panels icons p).2 pn = negb (panelOpen p pn)
  ∧ iconOpen (dropdownClick b panels icons p).2 ic = negb (iconOpen p ic).
Proof.
  intros Hc _ Hitems Hpn Hic.
  pose proof (replace_length "items" "expand" c Hitems) as Hlen.
  cbn in Hlen. split; [lia|]. split.
  { intros ->.
    unfold panelOf in Hpn. unfold iconOf in Hic. rewrite Hc in *.
    simpl in Hpn, Hic.
    apply head_select_id in Hpn, Hic. rewrite Hpn in Hic.
    injection Hic as Heq. rewrite <- Heq in Hlen. lia. }
  rewrite dropdownClick_completion, dropdownClick_panelOpen,
          dropdownClick_iconOpen, Hpn, Hic, Hc.
  rewrite (bool_decide_eq_true_2 (Some pn = Some pn)) by done.
  by rewrite (bool_decide_eq_true_2 (Some ic = Some ic)).
Qed.

Lemma icon_differs_from_panel_with_items_witness :
  controlsOf samplePage 5 = Some "b-dropdown-items"
  ∧ cssIdent "b-dropdown-items" = true
  ∧ String.length (JsString.replace "items" "expand" "b-dropdown-items")
    = S (String.length "b-dropdown-items")
  ∧ 7 ≠ 6
  ∧ (dropdownClick 5 [4; 7; 10] [3; 6; 9] samplePage).1 = Normal tt
  ∧ panelOpen (dropdownClick 5 [4; 7; 10] [3; 6; 9] samplePage).2 7 = true
  ∧ iconOpen (dropdownClick 5 [4; 7; 10] [3; 6; 9] samplePage).2 6 = true.
Proof.
  split; [reflexivity|]. split; [reflexivity|].
  apply (icon_differs_from_panel_with_items samplePage 5 [4; 7; 10] [3; 6; 9]
           "b-dropdown-items" 7 6);
    reflexivity.
Defined.

(** ** Initialisation *)

(** X2. [initialiseDropdown] always completes, also on a document without
    any dropdown.  It changes no element and binds exactly one click
    listener per element of class [dropdown__button], in document order;
    every handler holds the same two lists, the panels and the icons found
    at that moment. *)
Theorem initialiseDropdown_binds_every_trigger (p : Page) :
  initialiseDropdown p
  = (Normal tt,
     {| elements := elements p; hamburgerButton := hamburgerButton p;
        listeners :=
          listeners p
          ++ ((λ b, (b, dropdownListener b
                          (select ".dropdown__items" (elements p))
                          (select ".dropdown__expand" (elements p))))
                <$> select ".dropdown__button" (elements p));
        calls :=
          calls p
          ++ [CallQuerySelectorAll ".dropdown__button";
              CallQuerySelectorAll ".dropdown__items";
              CallQuerySelectorAll ".dropdown__expand"]
          ++ ((λ b, CallAddEventListener b "click")
                <$> select ".dropdown__button" (elements p)) |}).
Proof.
  unfold initialiseDropdown, bind. simpl.
  rewrite forEach_addEventListener. simpl.
  by rewrite <- !app_assoc.
Qed.

Lemma clicks_unbound targets p : listeners p = [] → clicks targets p = p.
Proof.
  intros Hnone. induction targets as [|t ts IH]; [done|].
  simpl. unfold click. rewrite Hnone. simpl. exact IH.
Qed.

(** X1. On a page without the element [#hamburger-button] the script stops
    with the exception of [initialiseHamburger]: [initialiseDropdown] never
    runs, no listener is bound, and no click changes the page, dropdown
    triggers included. *)
Theorem missing_hamburger_disables_dropdowns (els : list Element)
    (targets : list Node) :
  head (select "#hamburger-button" els) = None →
  (script (load els)).1 = Throw TypeError
  ∧ listeners (boot els) = []
  ∧ clicks targets (boot els) = boot els.
Proof.
  intros Hnone. unfold boot. rewrite script_run, Hnone. simpl.
  split; [done|]. split; [done|]. by apply clicks_unbound.
Qed.

Lemma missing_hamburger_disables_dropdowns_witness :
  head (select "#hamburger-button" noHamburgerDoc) = None
  ∧ select ".dropdown__button" noHamburgerDoc = [1]
  ∧ (script (load noHamburgerDoc)).1 = Throw TypeError
  ∧ listeners (boot noHamburgerDoc) = []
  ∧ clicks [1; 1; 1] (boot noHamburgerDoc) = boot noHamburgerDoc.
Proof.
  split; [reflexivity|]. split; [reflexivity|].
  apply (missing_hamburger_disables_dropdowns noHamburgerDoc [1; 1; 1]).
  reflexivity.
Defined.

Lemma clicks_edits els targets :
  edits openTokens (boot els) (clicks targets (boot els)).
Proof.
  by apply (clicks_invariant (λ _, True)).
Qed.

(** X9. Clicks never make the node lists of [initialiseDropdown] stale:
    after any click sequence the three class selectors and every id
    selector select the nodes they selected when the page was loaded, and
    every association attribute is what it was. *)
Theorem queries_stable_under_clicks (els : list Element) (targets : list Node) :
  select ".dropdown__button" (elements (clicks targets (boot els)))
    = select ".dropdown__button" els
  ∧ select ".dropdown__items" (elements (clicks targets (boot els)))
    = select ".dropdown__items" els
  ∧ select ".dropdown__expand" (elements (clicks targets (boot els)))
    = select ".dropdown__expand" els
  ∧ (∀ i, select ("#" +:+ i) (elements (clicks targets (boot els)))
          = select ("#" +:+ i) els)
  ∧ aria_controls <$> elements (clicks targets (boot els))
    = aria_controls <$> els.
Proof.
  pose proof (clicks_edits els targets) as H.
  assert (∀ sel, stableSelector openTokens sel →
            select sel (elements (clicks targets (boot els))) = select sel els)
    as Hsel.
  { intros sel Hs. rewrite (select_edits _ _ _ _ H Hs).
    by rewrite boot_elements. }
  repeat split.
  - apply Hsel. unfold openTokens. simpl. set_solver.
  - apply Hsel. unfold openTokens. simpl. set_solver.
  - apply Hsel. unfold openTokens. simpl. set_solver.
  - intros i. apply Hsel, hash_selector_stable.
  - rewrite (edits_attrs _ _ _ H). by rewrite boot_elements.
Qed.

(** ** What a click runs *)

Lemma filter_bound_fmap {B} (f : Node → B) (l : list Node) (t : Node) :
  NoDup l →
  filter (λ nl : Node * B, nl.1 = t) ((λ b, (b, f b)) <$> l)
  = if bool_decide (t ∈ l) then [(t, f t)] else [].
Proof.
  induction l as [|x l IH]; intros Hnd; [done|].
  apply NoDup_cons in Hnd as [Hx Hnd]. rewrite fmap_cons, filter_cons.
  simpl. rewrite (IH Hnd). destruct (decide (x = t)) as [->|Hd].
  - rewrite (bool_decide_eq_true_2 (t ∈ t :: l)) by apply list_elem_of_here.
    by rewrite bool_decide_eq_false_2.
  - destruct (decide (t ∈ l)) as [Hin|Hin].
    + rewrite !bool_decide_eq_true_2; [done|by apply list_elem_of_further|done].
    + rewrite !bool_decide_eq_false_2; [done| |done].
      intros [->|?]%elem_of_cons; done.
Qed.

(** On a page the script has booted, a click on [t] runs the hamburger
    handler if [t] is the hamburger trigger, and then the handler of [t] if
    [t] is a dropdown trigger. *)
Lemma click_boot els hb t q :
  head (select "#hamburger-button" els) = Some hb →
  listeners q = listeners (boot els) →
  click t q
  = let q1 := if bool_decide (hb = t) then (hamburgerClick q).2 else q in
    if bool_decide (t ∈ select ".dropdown__button" els)
    then (dropdownClick t (select ".dropdown__items" els)
                          (select ".dropdown__expand" els) q1).2
    else q1.
Proof.
  intros Hhb Hl. unfold click. rewrite Hl. unfold boot.
  rewrite script_run, Hhb. simpl.
  rewrite filter_cons. simpl.
  rewrite filter_bound_fmap by apply NoDup_select.
  destruct (decide (hb = t)) as [Hd|Hd].
  - rewrite (bool_decide_eq_true_2 (hb = t)) by done.
    by destruct (bool_decide (t ∈ _)).
  - rewrite (bool_decide_eq_false_2 (hb = t)) by done.
    by destruct (bool_decide (t ∈ _)).
Qed.

(** ** The dropdown group follows the accordion *)

Section accordion.
Variable els : list Element.
Hypothesis contract : dropdownContract els = true.

Lemma click_edits t q :
  edits openTokens (boot els) q → edits openTokens (boot els) (click t q).
Proof.
  intros Hq. eapply edits_trans; [exact Hq|].
  by apply (clicks_invariant (λ _, True) q (λ _ _ _ _ _ _, I) I [t]).
Qed.

Lemma accordion_handler open q e :
  edits openTokens (boot els) q →
  boundEvent els e = true →
  (∀ b pn, b ∈ select ".dropdown__button" els →
     panelOf (load els) b = Some pn →
     panelOpen q pn = bool_decide (open = Some b)) →
  ∀ b pn, b ∈ select ".dropdown__button" els →
    panelOf (load els) b = Some pn →
    panelOpen (runListener (handlerOf els e) q).2 pn
    = bool_decide (accordionEvent open e = Some b).
Proof using contract.
  intros Hq He Inv b pn Hb Hpn. destruct e as [t|]; simpl.
  2:{ rewrite hamburgerClick_panelOpen. by apply Inv. }
  simpl in He. apply bool_decide_eq_true in He as Ht. clear He.
  destruct (resolution_stable els q t Hq) as (_ & Ep & _).
  rewrite dropdownClick_panelOpen, Ep.
  destruct (contract_resolves els contract t Ht)
    as (c0 & pn0 & ic0 & _ & Hpn0 & _).
  destruct (contract_resolves els contract b Hb)
    as (c & pn' & ic & _ & Hpn' & _ & Hin & _).
  assert (pn' = pn) as -> by congruence.
  unfold accordionStep. destruct (decide (b = t)) as [->|Hne].
  - rewrite (bool_decide_eq_true_2 (panelOf (load els) t = Some pn)) by done.
    rewrite (Inv t pn Ht Hpn).
    destruct (decide (open = Some t)) as [Ho|Ho].
    + rewrite !(bool_decide_eq_true_2 (open = Some t)) by done.
      by rewrite bool_decide_eq_false_2.
    + rewrite !(bool_decide_eq_false_2 (open = Some t)) by done.
      by rewrite bool_decide_eq_true_2.
  - destruct (contract_distinct els contract b t Hb Ht Hne) as [Dp _].
    rewrite (bool_decide_eq_false_2 (panelOf (load els) t = Some pn))
      by congruence.
    rewrite (bool_decide_eq_true_2 (pn ∈ _)) by done.
    symmetry. apply bool_decide_eq_false_2.
    case_bool_decide; congruence.
Qed.

Lemma accordion_handlers events open q :
  edits openTokens (boot els) q →
  forallb (boundEvent els) events = true →
  (∀ b pn, b ∈ select ".dropdown__button" els →
     panelOf (load els) b = Some pn →
     panelOpen q pn = bool_decide (open = Some b)) →
  ∀ b pn, b ∈ select ".dropdown__button" els →
    panelOf (load els) b = Some pn →
    panelOpen (runHandlers els events q) pn
    = bool_decide (foldl accordionEvent open events = Some b).
Proof using contract.
  revert open q. induction events as [|e es IH]; intros open q Hq Hes Inv.
  - exact Inv.
  - simpl in Hes. apply andb_prop in Hes as [He Hes]. simpl.
    apply IH; [|done|by apply accordion_handler].
    eapply edits_trans; [exact Hq|apply runListener_edits].
Qed.

End accordion.

(** On a page the script has booted, the handler of every event is one the
    script has bound. *)
Lemma handlerOf_bound els hb e :
  head (select "#hamburger-button" els) = Some hb →
  boundEvent els e = true →
  handlerOf els e ∈ (listeners (boot els)).*2.
Proof.
  intros Hhb He. unfold boot. rewrite script_run, Hhb. simpl.
  destruct e as [t|]; simpl; [|apply list_elem_of_here].
  apply list_elem_of_further, list_elem_of_fmap.
  exists (t, dropdownListener t (select ".dropdown__items" els)
                               (select ".dropdown__expand" els)).
  split; [done|]. apply list_elem_of_fmap. exists t. split; [done|].
  by apply bool_decide_eq_true in He.
Qed.

(** X13. Under the contract of the markup, on a booted page, the open
    panel after any sequence of runs of the handlers the script has bound
    (the hamburger handler, or the handler of a dropdown trigger) is the one
    the accordion state machine gives: the item of trigger [b] is open
    exactly when the run of the machine over the events ends in [b], a run
    of the hamburger handler leaving the machine where it is.  So the
    trigger whose handler ran last is open unless the runs of that handler
    at the end of the sequence, hamburger runs apart, come in even number,
    and nothing else is open.  The statement is over handler runs, so it
    holds whichever handlers each click reaches. *)
Theorem accordion_simulation (els : list Element) (hb : Node)
    (events : list (option Node)) (b pn : Node) :
  dropdownContract els = true →
  head (select "#hamburger-button" els) = Some hb →
  forallb (boundEvent els) events = true →
  b ∈ select ".dropdown__button" els →
  panelOf (load els) b = Some pn →
  (∀ e, e ∈ events → handlerOf els e ∈ (listeners (boot els)).*2)
  ∧ panelOpen (runHandlers els events (boot els)) pn
    = bool_decide (accordionEvents events = Some b).
Proof.
  intros Hcontract Hhb Hes Hb Hpn. split.
  { intros e He. apply (handlerOf_bound els hb e Hhb).
    rewrite forallb_forall in Hes. apply Hes. by apply list_elem_of_In. }
  unfold accordionEvents.
  apply (accordion_handlers els Hcontract events None (boot els));
    [apply edits_refl|exact Hes| |exact Hb|exact Hpn].
  intros b' pn' Hb' Hpn'.
  destruct (contract_resolves els Hcontract b' Hb')
    as (c & pn'' & ic & _ & Hpn'' & _ & Hin & _).
  assert (pn'' = pn') as -> by congruence.
  destruct (contract_closed els Hcontract) as [Hclosed _].
  by rewrite (Hclosed pn' Hin).
Qed.

Lemma accordion_simulation_witness :
  dropdownContract sampleDoc = true
  ∧ accordionEvents [Some 2; Some 5; None; Some 8; Some 8; Some 5; None;
                     Some 5; Some 5] = Some 5
  ∧ panelOpen (runHandlers sampleDoc
                 [Some 2; Some 5; None; Some 8; Some 8; Some 5; None;
                  Some 5; Some 5] (boot sampleDoc)) 7 = true.
Proof.
  split; [reflexivity|]. split; [reflexivity|].
  destruct (accordion_simulation sampleDoc 0
              [Some 2; Some 5; None; Some 8; Some 8; Some 5; None;
               Some 5; Some 5] 5 7) as [_ H];
    [reflexivity|reflexivity|reflexivity|by apply (bool_decide_unpack _)
    |reflexivity|].
  by rewrite H.
Defined.

(** ** Counting hamburger clicks *)

Lemma hamburger_clicks_from els hb k q :
  head (select "#hamburger-button" els) = Some hb →
  is_Some (navPanelOf (load els)) →
  edits openTokens (boot els) q →
  navPanelOpen (clicks (repeat hb k) q) = xorb (navPanelOpen q) (Nat.odd k)
  ∧ hamburgerIconOpen (clicks (repeat hb k) q)
    = xorb (hamburgerIconOpen q) (Nat.odd k).
Proof.
  intros Hhb [np Hnp]. revert q. induction k as [|k IH]; intros q Hq.
  - simpl. by rewrite !xorb_false_r.
  - simpl. destruct (IH (click hb q) (click_edits els hb q Hq))
      as [-> ->].
    rewrite (click_boot els hb hb q Hhb (edits_listeners _ _ _ Hq)). simpl.
    rewrite (bool_decide_eq_true_2 (hb = hb)) by done.
    assert (navPanelOf q = Some np) as Hnq.
    { rewrite (navPanelOf_edits _ _ _ Hq). unfold navPanelOf in *.
      by rewrite boot_elements. }
    assert (buttonBound q = true) as Hbq.
    { rewrite (buttonBound_edits _ _ _ Hq). unfold buttonBound, boot.
      rewrite script_run, Hhb. simpl. apply bool_decide_eq_true.
      eapply head_select_lt, Hhb. }
    assert (navPanelOpen (hamburgerClick q).2 = negb (navPanelOpen q)) as En
      by (by rewrite hamburgerClick_navPanelOpen, Hnq).
    assert (hamburgerIconOpen (hamburgerClick q).2
            = negb (hamburgerIconOpen q)) as Ei
      by (by rewrite hamburgerClick_hamburgerIconOpen, Hnq, Hbq).
    rewrite Nat.odd_succ, <- Nat.negb_odd.
    case_bool_decide.
    + rewrite dropdownClick_navPanelOpen, dropdownClick_hamburgerIconOpen.
      rewrite En, Ei.
      by destruct (navPanelOpen q), (hamburgerIconOpen q), (Nat.odd k).
    + rewrite En, Ei.
      by destruct (navPanelOpen q), (hamburgerIconOpen q), (Nat.odd k).
Qed.

(** X15. On a booted page with a navigation panel, after [k] clicks on the
    hamburger trigger the panel and the icon have each changed state when
    [k] is odd and are each as they were loaded when [k] is even. *)
Theorem hamburger_clicks_parity (els : list Element) (hb : Node) (k : nat) :
  head (select "#hamburger-button" els) = Some hb →
  is_Some (navPanelOf (load els)) →
  navPanelOpen (clicks (repeat hb k) (boot els))
    = xorb (navPanelOpen (load els)) (Nat.odd k)
  ∧ hamburgerIconOpen (clicks (repeat hb k) (boot els))
    = xorb (hasToken els hb "hamburger--open") (Nat.odd k).
Proof.
  intros Hhb Hnav.
  destruct (hamburger_clicks_from els hb k (boot els) Hhb Hnav
              (edits_refl _ _)) as [-> ->].
  split.
  - unfold navPanelOpen. by rewrite boot_elements.
  - unfold hamburgerIconOpen, boot. by rewrite script_run, Hhb.
Qed.

Lemma hamburger_clicks_parity_witness :
  head (select "#hamburger-button" sampleDoc) = Some 0
  ∧ navPanelOpen (clicks (repeat 0 5) (boot sampleDoc)) = true
  ∧ hamburgerIconOpen (clicks (repeat 0 5) (boot sampleDoc)) = true.
Proof.
  split; [reflexivity|].
  destruct (hamburger_clicks_parity sampleDoc 0 5) as [-> ->];
    [reflexivity|by eexists|].
  split; reflexivity.
Defined.

(** ** The two handlers commute *)

Lemma hamburgerClick_nav_token p n :
  hasToken (elements (hamburgerClick p).2) n "site-nav__items--open"
  = if bool_decide (navPanelOf p = Some n)
    then negb (hasToken (elements p) n "site-nav__items--open")
    else hasToken (elements p) n "site-nav__items--open".
Proof.
  unfold hamburgerClick, bind. simpl. fold (navPanelOf p).
  destruct (navPanelOf p) as [np|] eqn:Hnp; simpl; [|done].
  assert (np < length (elements p)) as Hlt by (eapply head_select_lt, Hnp).
  assert (hasToken
            (alter (set_classList (DOMTokenList.toggle "site-nav__items--open"))
                   np (elements p)) n "site-nav__items--open"
          = if bool_decide (Some np = Some n)
            then negb (hasToken (elements p) n "site-nav__items--open")
            else hasToken (elements p) n "site-nav__items--open") as E.
  { case_bool_decide as Hn.
    - injection Hn as ->. by apply hasToken_toggle_same.
    - apply hasToken_alter_other. congruence. }
  destruct (hamburgerButton p) as [hb|]; simpl; [|exact E].
  rewrite hasToken_alter_frame; [exact E|].
  intros l. by apply contains_toggle_ne.
Qed.

Lemma hamburgerClick_button_token p n :
  hasToken (elements (hamburgerClick p).2) n "hamburger--open"
  = if bool_decide (is_Some (navPanelOf p) ∧ hamburgerButton p = Some n
                    ∧ n < length (elements p))
    then negb (hasToken (elements p) n "hamburger--open")
    else hasToken (elements p) n "hamburger--open".
Proof.
  unfold hamburgerClick, bind. simpl. fold (navPanelOf p).
  destruct (navPanelOf p) as [np|] eqn:Hnp; simpl; [|done].
  assert (∀ m, hasToken
            (alter (set_classList (DOMTokenList.toggle "site-nav__items--open"))
                   np (elements p)) m "hamburger--open"
          = hasToken (elements p) m "hamburger--open") as E.
  { intros m. apply hasToken_alter_frame.
    intros l. by apply contains_toggle_ne. }
  destruct (hamburgerButton p) as [hb|] eqn:Hhb; simpl; rewrite ?Hhb.
  2:{ rewrite E. first [done|case_bool_decide as Hd; [|done];
                          by destruct Hd as (_ & ? & _)]. }
  destruct (decide (hb = n)) as [->|Hne].
  - destruct (decide (n < length (elements p))) as [Hlt|Hge].
    + rewrite hasToken_toggle_same by (by rewrite length_alter).
      rewrite E. case_bool_decide as Hd; [done|].
      exfalso. apply Hd. by split; [eexists|].
    + rewrite hasToken_alter_same, list_lookup_alter.
      assert (elements p !! n = None) as En by (apply lookup_ge_None; lia).
      unfold hasToken. rewrite En.
      case_bool_decide as Hd; [by destruct Hd as (_ & _ & ?)|].
      case_decide as Hd'; [subst np; by rewrite En|done].
  - rewrite hasToken_alter_other by done. rewrite E.
    case_bool_decide as Hd; [|done].
    destruct Hd as (_ & ? & _). congruence.
Qed.

(** X12. The hamburger handler and the handler of a dropdown trigger
    whose attribute is missing or holds an identifier commute: run in
    either order from any page, the two handlers leave every node with the
    same class tokens, and each of them completes, or throws, as it would
    have alone. *)
Theorem hamburger_and_dropdown_commute (p : Page) (b : Node)
    (panels icons : list Node) :
  validControls (controlsOf p b) = true →
  (∀ n tok,
     hasToken (elements (dropdownClick b panels icons (hamburgerClick p).2).2)
              n tok
     = hasToken (elements (hamburgerClick (dropdownClick b panels icons p).2).2)
                n tok)
  ∧ (dropdownClick b panels icons (hamburgerClick p).2).1
    = (dropdownClick b panels icons p).1
  ∧ (hamburgerClick (dropdownClick b panels icons p).2).1
    = (hamburgerClick p).1.
Proof.
  intros _.
  pose proof (frames_hamburgerClick p) as Fh.
  pose proof (frames_dropdownClick b panels icons p) as Fd.
  pose proof (frames_hamburgerClick (dropdownClick b panels icons p).2) as Fhd.
  pose proof (frames_dropdownClick b panels icons (hamburgerClick p).2) as Fdh.
  split; [|split].
  - intros n tok.
    destruct (decide (tok = "dropdown__items--open")) as [->|Hp].
    { change (panelOpen (dropdownClick b panels icons (hamburgerClick p).2).2 n
              = panelOpen (hamburgerClick (dropdownClick b panels icons p).2).2 n).
      rewrite hamburgerClick_panelOpen, !dropdownClick_panelOpen.
      by rewrite (panelOf_edits _ _ _ b Fh), !hamburgerClick_panelOpen. }
    destruct (decide (tok = "dropdown__expand--open")) as [->|Hi].
    { change (iconOpen (dropdownClick b panels icons (hamburgerClick p).2).2 n
              = iconOpen (hamburgerClick (dropdownClick b panels icons p).2).2 n).
      rewrite hamburgerClick_iconOpen, !dropdownClick_iconOpen.
      by rewrite (panelOf_edits _ _ _ b Fh), (controlsOf_edits _ _ _ b Fh),
                 (iconOf_edits _ _ _ b Fh), !hamburgerClick_iconOpen. }
    destruct (decide (tok = "site-nav__items--open")) as [->|Hn].
    { rewrite (edits_tokens _ _ _ Fdh) by set_solver.
      rewrite !hamburgerClick_nav_token.
      rewrite (navPanelOf_edits _ _ _ Fd).
      by rewrite (edits_tokens _ _ _ Fd) by set_solver. }
    destruct (decide (tok = "hamburger--open")) as [->|Hh].
    { rewrite (edits_tokens _ _ _ Fdh) by set_solver.
      rewrite !hamburgerClick_button_token.
      rewrite (navPanelOf_edits _ _ _ Fd), (edits_button _ _ _ Fd),
              (edits_length _ _ _ Fd).
      by rewrite (edits_tokens _ _ _ Fd) by set_solver. }
    rewrite (edits_tokens _ _ _ Fdh), (edits_tokens _ _ _ Fh) by set_solver.
    rewrite (edits_tokens _ _ _ Fhd), (edits_tokens _ _ _ Fd) by set_solver.
    done.
  - rewrite !dropdownClick_completion.
    by rewrite (panelOf_edits _ _ _ b Fh), (iconOf_edits _ _ _ b Fh).
  - rewrite !hamburgerClick_completion.
    by rewrite (navPanelOf_edits _ _ _ Fd), (edits_button _ _ _ Fd).
Qed.

Lemma hamburger_and_dropdown_commute_witness :
  validControls (controlsOf samplePage 5) = true
  ∧ hasToken (elements (hamburgerClick
                          (dropdownClick 5 [4; 7; 10] [3; 6; 9] samplePage).2).2)
             7 "dropdown__items--open" = true
  ∧ hasToken (elements (hamburgerClick
                          (dropdownClick 5 [4; 7; 10] [3; 6; 9] samplePage).2).2)
             1 "site-nav__items--open" = true
  ∧ (hamburgerClick (dropdownClick 5 [4; 7; 10] [3; 6; 9] samplePage).2).1
    = Normal tt.
Proof.
  split; [reflexivity|].
  destruct (hamburger_and_dropdown_commute samplePage 5 [4; 7; 10] [3; 6; 9])
    as (Htok & _ & Hh); [reflexivity|].
  split; [by rewrite <- Htok|]. split; [by rewrite <- Htok|].
  by rewrite Hh.
Defined.

(** ** The dropdown toggle of [index.js] *)

Lemma frames_IndexJs_dropdownClick :
  frames ["dropdown__items--open"; "dropdown__expand--open"]
         IndexJs.dropdownClick.
Proof. unfold IndexJs.dropdownClick. solve_frames. Qed.

Lemma select_toggle sel tok n els :
  stableSelector [tok] sel →
  select sel (alter (set_classList (DOMTokenList.toggle tok)) n els)
  = select sel els.
Proof.
  intros Hs.
  change (select sel
            (elements
               (set_elements
                  (alter (set_classList (DOMTokenList.toggle tok)) n)
                  (load els)))
          = select sel (elements (load els))).
  apply (select_edits [tok]); [|done].
  apply edits_alter. intros tok' l Hnin. apply contains_toggle_ne.
  intros ->. apply Hnin, list_elem_of_here.
Qed.

Lemma IndexJs_dropdownClick_completion p :
  (IndexJs.dropdownClick p).1
  = match IndexJs.panelOf p, IndexJs.iconOf p with
    | Some _, Some _ => Normal tt
    | _, _ => Throw TypeError
    end.
Proof.
  unfold IndexJs.dropdownClick, bind. simpl. fold (IndexJs.panelOf p).
  destruct (IndexJs.panelOf p) as [pn|]; simpl; [|done].
  rewrite select_toggle by exact I.
  fold (IndexJs.iconOf p). by destruct (IndexJs.iconOf p).
Qed.

Lemma IndexJs_dropdownClick_panelOpen p n :
  panelOpen (IndexJs.dropdownClick p).2 n
  = if bool_decide (IndexJs.panelOf p = Some n) then negb (panelOpen p n)
    else panelOpen p n.
Proof.
  unfold IndexJs.dropdownClick, bind, panelOpen. simpl.
  fold (IndexJs.panelOf p).
  destruct (IndexJs.panelOf p) as [pn|] eqn:Hpn; simpl; [|done].
  assert (pn < length (elements p)) as Hlt by (eapply head_select_lt, Hpn).
  assert (hasToken
            (alter (set_classList (DOMTokenList.toggle "dropdown__items--open"))
                   pn (elements p)) n "dropdown__items--open"
          = if bool_decide (Some pn = Some n)
            then negb (hasToken (elements p) n "dropdown__items--open")
            else hasToken (elements p) n "dropdown__items--open") as E.
  { case_bool_decide as Hn.
    - injection Hn as ->. by apply hasToken_toggle_same.
    - apply hasToken_alter_other. congruence. }
  destruct (head (select "#problems-dropdown-expand" _)) as [ic|]; simpl;
    [|exact E].
  rewrite hasToken_alter_frame; [exact E|].
  intros l. by apply contains_toggle_ne.
Qed.

Lemma IndexJs_dropdownClick_iconOpen p n :
  iconOpen (IndexJs.dropdownClick p).2 n
  = match IndexJs.panelOf p with
    | Some _ =>
        if bool_decide (IndexJs.iconOf p = Some n) then negb (iconOpen p n)
        else iconOpen p n
    | None => iconOpen p n
    end.
Proof.
  unfold IndexJs.dropdownClick, bind, iconOpen. simpl.
  fold (IndexJs.panelOf p).
  destruct (IndexJs.panelOf p) as [pn|] eqn:Hpn; simpl; [|done].
  rewrite select_toggle by exact I. fold (IndexJs.iconOf p).
  assert (∀ m, hasToken
            (alter (set_classList (DOMTokenList.toggle "dropdown__items--open"))
                   pn (elements p)) m "dropdown__expand--open"
               = hasToken (elements p) m "dropdown__expand--open") as E.
  { intros m. apply hasToken_alter_frame.
    intros l. by apply contains_toggle_ne. }
  destruct (IndexJs.iconOf p) as [ic|] eqn:Hic; simpl.
  - assert (ic < length (elements p)) as Hlt by (eapply head_select_lt, Hic).
    case_bool_decide as Hn.
    + injection Hn as ->.
      rewrite hasToken_toggle_same by (by rewrite length_alter).
      by rewrite E.
    + rewrite hasToken_alter_other by congruence. apply E.
  - apply E.
Qed.

(** X16. The dropdown handler of [index.js] updates in two steps that can
    come apart: with panel and icon present it flips both and completes;
    with the panel present and the icon missing it flips the panel and then
    throws, leaving every icon as it was; with the panel missing it throws
    at once and changes no class, also when the icon exists. *)
Theorem index_js_dropdownClick_cases (p : Page) :
  match IndexJs.panelOf p, IndexJs.iconOf p with
  | Some pn, Some ic =>
      (IndexJs.dropdownClick p).1 = Normal tt
      ∧ panelOpen (IndexJs.dropdownClick p).2 pn = negb (panelOpen p pn)
      ∧ iconOpen (IndexJs.dropdownClick p).2 ic = negb (iconOpen p ic)
  | Some pn, None =>
      (IndexJs.dropdownClick p).1 = Throw TypeError
      ∧ panelOpen (IndexJs.dropdownClick p).2 pn = negb (panelOpen p pn)
      ∧ ∀ n, iconOpen (IndexJs.dropdownClick p).2 n = iconOpen p n
  | None, _ =>
      (IndexJs.dropdownClick p).1 = Throw TypeError
      ∧ elements (IndexJs.dropdownClick p).2 = elements p
  end.
Proof.
  pose proof (IndexJs_dropdownClick_completion p) as C.
  pose proof (IndexJs_dropdownClick_panelOpen p) as P.
  pose proof (IndexJs_dropdownClick_iconOpen p) as Ic.
  destruct (IndexJs.panelOf p) as [pn|] eqn:Hpn.
  - destruct (IndexJs.iconOf p) as [ic|] eqn:Hic.
    + split; [done|]. split.
      * by rewrite P, bool_decide_eq_true_2.
      * by rewrite Ic, bool_decide_eq_true_2.
    + split; [done|]. split.
      * by rewrite P, bool_decide_eq_true_2.
      * intros n. rewrite Ic. by rewrite bool_decide_eq_false_2.
  - split; [by destruct (IndexJs.iconOf p)|].
    unfold IndexJs.dropdownClick, bind. simpl.
    unfold IndexJs.panelOf in Hpn. by rewrite Hpn.
Qed.

(** X17. Two runs of the dropdown handler of [index.js] leave every node
    with the class tokens it had, on every page: also on a page without
    icon, where each run throws after flipping the panel. *)
Theorem index_js_dropdownClick_twice (p : Page) (n : Node) (tok : string) :
  hasToken (elements (IndexJs.dropdownClick (IndexJs.dropdownClick p).2).2) n tok
  = hasToken (elements p) n tok.
Proof.
  pose proof (frames_IndexJs_dropdownClick p) as F.
  pose proof (frames_IndexJs_dropdownClick (IndexJs.dropdownClick p).2) as F2.
  assert (IndexJs.panelOf (IndexJs.dropdownClick p).2 = IndexJs.panelOf p) as Ep.
  { unfold IndexJs.panelOf.
    by rewrite (select_edits _ "#problems-dropdown-items" _ _ F I). }
  assert (IndexJs.iconOf (IndexJs.dropdownClick p).2 = IndexJs.iconOf p) as Ei.
  { unfold IndexJs.iconOf.
    by rewrite (select_edits _ "#problems-dropdown-expand" _ _ F I). }
  destruct (decide (tok = "dropdown__items--open")) as [->|Hp].
  { change (panelOpen (IndexJs.dropdownClick (IndexJs.dropdownClick p).2).2 n
            = panelOpen p n).
    rewrite !IndexJs_dropdownClick_panelOpen, Ep.
    case_bool_decide; [apply negb_involutive|done]. }
  destruct (decide (tok = "dropdown__expand--open")) as [->|Hi].
  { change (iconOpen (IndexJs.dropdownClick (IndexJs.dropdownClick p).2).2 n
            = iconOpen p n).
    rewrite !IndexJs_dropdownClick_iconOpen, Ep, Ei.
    destruct (IndexJs.panelOf p); [|done].
    case_bool_decide; [apply negb_involutive|done]. }
  rewrite (edits_tokens _ _ _ F2), (edits_tokens _ _ _ F); set_solver.
Qed.

(** X18. The handler of the group script agrees with the handler of
    [index.js] on its page: for a trigger whose attribute is
    [problems-dropdown-items] and a group that holds no other panel and no
    other icon, both handlers leave every node with the same class tokens
    and complete, or throw, alike. *)
Theorem dropdownClick_agrees_with_index_js (p : Page) (b : Node)
    (panels icons : list Node) :
  controlsOf p b = Some "problems-dropdown-items" →
  (∀ n, n ∈ panels → panelOf p b = Some n) →
  (∀ n, n ∈ icons → iconOf p b = Some n) →
  (∀ n tok,
     hasToken (elements (dropdownClick b panels icons p).2) n tok
     = hasToken (elements (IndexJs.dropdownClick p).2) n tok)
  ∧ (dropdownClick b panels icons p).1 = (IndexJs.dropdownClick p).1.
Proof.
  intros Hc Hpanels Hicons.
  assert (panelOf p b = IndexJs.panelOf p) as Ep
    by (unfold panelOf; by rewrite Hc).
  assert (iconOf p b = IndexJs.iconOf p) as Ei
    by (unfold iconOf; by rewrite Hc).
  pose proof (frames_IndexJs_dropdownClick p) as Fo.
  pose proof (frames_dropdownClick b panels icons p) as Fn.
  split.
  - intros n tok.
    destruct (decide (tok = "dropdown__items--open")) as [->|Hp].
    { change (panelOpen (dropdownClick b panels icons p).2 n
              = panelOpen (IndexJs.dropdownClick p).2 n).
      rewrite dropdownClick_panelOpen, IndexJs_dropdownClick_panelOpen, <- Ep.
      case_bool_decide as H1; [done|].
      case_bool_decide as H2; [|done]. by apply Hpanels in H2. }
    destruct (decide (tok = "dropdown__expand--open")) as [->|Hi].
    { change (iconOpen (dropdownClick b panels icons p).2 n
              = iconOpen (IndexJs.dropdownClick p).2 n).
      rewrite dropdownClick_iconOpen, IndexJs_dropdownClick_iconOpen, Hc.
      rewrite <- Ep, <- Ei. destruct (panelOf p b); [|done].
      case_bool_decide as H1; [done|].
      case_bool_decide as H2; [|done]. by apply Hicons in H2. }
    rewrite (edits_tokens _ _ _ Fn), (edits_tokens _ _ _ Fo); set_solver.
  - by rewrite dropdownClick_completion, IndexJs_dropdownClick_completion,
               Ep, Ei.
Qed.

Lemma dropdownClick_agrees_with_index_js_witness :
  controlsOf (boot IndexJs.sampleDoc) 2 = Some "problems-dropdown-items"
  ∧ select ".dropdown__items" IndexJs.sampleDoc = [4]
  ∧ select ".dropdown__expand" IndexJs.sampleDoc = [3]
  ∧ (dropdownClick 2 [4] [3] (boot IndexJs.sampleDoc)).1
    = (IndexJs.dropdownClick (boot IndexJs.sampleDoc)).1
  ∧ panelOpen (IndexJs.dropdownClick (boot IndexJs.sampleDoc)).2 4 = true.
Proof.
  split; [reflexivity|]. split; [reflexivity|]. split; [reflexivity|].
  split; [|reflexivity].
  apply (dropdownClick_agrees_with_index_js (boot IndexJs.sampleDoc) 2 [4] [3]).
  - reflexivity.
  - intros n ->%list_elem_of_singleton. reflexivity.
  - intros n ->%list_elem_of_singleton. reflexivity.
Defined.

(** ** The script of [index.js] as a whole *)

Lemma IndexJs_script_run els :
  IndexJs.script (IndexJs.load els)
  = match head (select "#hamburger-button" els) with
    | Some hb =>
        match head (select "#problems-dropdown-button" els) with
        | Some db =>
            (Normal tt,
             {| IndexJs.page :=
                  {| elements := els; hamburgerButton := Some hb;
                     listeners := [(hb, hamburgerListener)];
                     calls := [CallQuerySelector "#hamburger-button";
                               CallAddEventListener hb "click";
                               CallQuerySelector "#problems-dropdown-button";
                               CallAddEventListener db "click"] |};
                IndexJs.dropdownButton := Some db;
                IndexJs.dropdownBound := [db] |})
        | None =>
            (Throw TypeError,
             {| IndexJs.page :=
                  {| elements := els; hamburgerButton := Some hb;
                     listeners := [(hb, hamburgerListener)];
                     calls := [CallQuerySelector "#hamburger-button";
                               CallAddEventListener hb "click";
                               CallQuerySelector "#problems-dropdown-button"] |};
                IndexJs.dropdownButton := None;
                IndexJs.dropdownBound := [] |})
        end
    | None =>
        (Throw TypeError,
         {| IndexJs.page :=
              {| elements := els; hamburgerButton := None; listeners := [];
                 calls := [CallQuerySelector "#hamburger-button"] |};
            IndexJs.dropdownButton := None;
            IndexJs.dropdownBound := [] |})
    end.
Proof.
  unfold IndexJs.script. rewrite initialiseHamburger_run. simpl.
  destruct (head (select "#hamburger-button" els)) as [hb|]; [|done].
  unfold IndexJs.initialiseDropdown. simpl.
  by destruct (head (select "#problems-dropdown-button" els)).
Qed.

(** X19. The script of [index.js] binds its two handlers one after the
    other and stops at the first trigger it does not find: without
    [#hamburger-button] nothing is bound, the dropdown trigger included;
    with it and without [#problems-dropdown-button] only the hamburger
    handler is bound; with both, both are bound, to two different nodes.
    Whether the panels and the icon exist plays no part, and no element is
    changed. *)
Theorem index_js_script_outcome (els : list Element) :
  elements (IndexJs.page (IndexJs.boot els)) = els
  ∧ match head (select "#hamburger-button" els),
          head (select "#problems-dropdown-button" els) with
    | Some hb, Some db =>
        (IndexJs.script (IndexJs.load els)).1 = Normal tt
        ∧ listeners (IndexJs.page (IndexJs.boot els)) = [(hb, hamburgerListener)]
        ∧ IndexJs.dropdownBound (IndexJs.boot els) = [db]
        ∧ hb ≠ db
    | Some hb, None =>
        (IndexJs.script (IndexJs.load els)).1 = Throw TypeError
        ∧ listeners (IndexJs.page (IndexJs.boot els)) = [(hb, hamburgerListener)]
        ∧ IndexJs.dropdownBound (IndexJs.boot els) = []
    | None, _ =>
        (IndexJs.script (IndexJs.load els)).1 = Throw TypeError
        ∧ listeners (IndexJs.page (IndexJs.boot els)) = []
        ∧ IndexJs.dropdownBound (IndexJs.boot els) = []
    end.
Proof.
  unfold IndexJs.boot. rewrite IndexJs_script_run.
  destruct (head (select "#hamburger-button" els)) as [hb|] eqn:Hhb.
  - destruct (head (select "#problems-dropdown-button" els)) as [db|] eqn:Hdb;
      simpl; [|done].
    repeat split. intros ->.
    apply (head_select_id "hamburger-button") in Hhb.
    apply (head_select_id "problems-dropdown-button") in Hdb.
    rewrite Hhb in Hdb. done.
  - by destruct (head (select "#problems-dropdown-button" els)).
Qed.

Lemma IndexJs_boot_elements els :
  elements (IndexJs.page (IndexJs.boot els)) = els.
Proof.
  unfold IndexJs.boot. rewrite IndexJs_script_run.
  by destruct (head (select "#hamburger-button" els)),
              (head (select "#problems-dropdown-button" els)).
Qed.

Lemma IndexJs_boot_listeners els n l :
  (n, l) ∈ listeners (IndexJs.page (IndexJs.boot els)) → l = hamburgerListener.
Proof.
  unfold IndexJs.boot. rewrite IndexJs_script_run.
  destruct (head (select "#hamburger-button" els)),
           (head (select "#problems-dropdown-button" els)); simpl;
    try (by intros ?%elem_of_nil);
    by intros [= _ ->]%list_elem_of_singleton.
Qed.

Section index_js_lockstep.
Variable els : list Element.
Variables pn ic : Node.
Hypothesis panel : IndexJs.panelOf (load els) = Some pn.
Hypothesis icon : IndexJs.iconOf (load els) = Some ic.

Lemma IndexJs_runs q (bs : list Node) :
  edits openTokens (IndexJs.page (IndexJs.boot els)) q →
  iconOpen q ic = panelOpen q pn →
  edits openTokens (IndexJs.page (IndexJs.boot els))
        (foldl (λ r _, (IndexJs.dropdownClick r).2) q bs)
  ∧ iconOpen (foldl (λ r _, (IndexJs.dropdownClick r).2) q bs) ic
    = panelOpen (foldl (λ r _, (IndexJs.dropdownClick r).2) q bs) pn.
Proof using panel icon.
  revert q. induction bs as [|b bs IH]; intros q Hq Inv; [done|].
  simpl. apply IH.
  - eapply edits_trans; [exact Hq|].
    eapply edits_weaken; [|apply frames_IndexJs_dropdownClick].
    unfold openTokens. set_solver.
  - assert (IndexJs.panelOf q = Some pn) as Hp.
    { unfold IndexJs.panelOf in *.
      rewrite (select_edits _ "#problems-dropdown-items" _ _ Hq I).
      by rewrite IndexJs_boot_elements. }
    assert (IndexJs.iconOf q = Some ic) as Hi.
    { unfold IndexJs.iconOf in *.
      rewrite (select_edits _ "#problems-dropdown-expand" _ _ Hq I).
      by rewrite IndexJs_boot_elements. }
    rewrite IndexJs_dropdownClick_iconOpen, IndexJs_dropdownClick_panelOpen.
    rewrite Hp, Hi, !bool_decide_eq_true_2 by done. by rewrite Inv.
Qed.

Lemma IndexJs_click_step t s :
  edits openTokens (IndexJs.page (IndexJs.boot els)) (IndexJs.page s) →
  iconOpen (IndexJs.page s) ic = panelOpen (IndexJs.page s) pn →
  edits openTokens (IndexJs.page (IndexJs.boot els))
        (IndexJs.page (IndexJs.click t s))
  ∧ iconOpen (IndexJs.page (IndexJs.click t s)) ic
    = panelOpen (IndexJs.page (IndexJs.click t s)) pn.
Proof using panel icon.
  intros Hs Inv. unfold IndexJs.click. simpl.
  destruct (clicks_invariant (λ q, iconOpen q ic = panelOpen q pn)
              (IndexJs.page s)) with (targets := [t]) as [Inv1 E1];
    [|exact Inv|].
  - intros q n l _ Hq Hl. rewrite (edits_listeners _ _ _ Hs) in Hl.
    rewrite (IndexJs_boot_listeners els n l Hl). simpl.
    by rewrite hamburgerClick_iconOpen, hamburgerClick_panelOpen.
  - simpl in Inv1, E1. apply IndexJs_runs; [|exact Inv1].
    by eapply edits_trans.
Qed.

Lemma IndexJs_clicks_step targets s :
  edits openTokens (IndexJs.page (IndexJs.boot els)) (IndexJs.page s) →
  iconOpen (IndexJs.page s) ic = panelOpen (IndexJs.page s) pn →
  iconOpen (IndexJs.page (IndexJs.clicks targets s)) ic
  = panelOpen (IndexJs.page (IndexJs.clicks targets s)) pn.
Proof using panel icon.
  revert s. induction targets as [|t ts IH]; intros s Hs Inv; [done|].
  simpl. destruct (IndexJs_click_step t s Hs Inv) as [Hs' Inv'].
  by apply IH.
Qed.

End index_js_lockstep.

(** X20. On a page of [index.js] that has the panel and the icon, loaded
    with the icon open exactly when the panel is, the two stay in step:
    after every click of every click sequence the icon is open exactly when
    the panel is. *)
Theorem index_js_icon_follows_panel (els : list Element)
    (targets : list Node) (pn ic : Node) :
  IndexJs.panelOf (load els) = Some pn →
  IndexJs.iconOf (load els) = Some ic →
  iconOpen (load els) ic = panelOpen (load els) pn →
  iconOpen (IndexJs.page (IndexJs.clicks targets (IndexJs.boot els))) ic
  = panelOpen (IndexJs.page (IndexJs.clicks targets (IndexJs.boot els))) pn.
Proof.
  intros Hp Hi Inv.
  apply (IndexJs_clicks_step els pn ic Hp Hi); [apply edits_refl|].
  unfold iconOpen, panelOpen in *. by rewrite IndexJs_boot_elements.
Qed.

Lemma index_js_icon_follows_panel_witness :
  IndexJs.panelOf (load IndexJs.sampleDoc) = Some 4
  ∧ IndexJs.iconOf (load IndexJs.sampleDoc) = Some 3
  ∧ panelOpen
      (IndexJs.page (IndexJs.clicks [2; 0; 2; 2] (IndexJs.boot IndexJs.sampleDoc)))
      4 = true
  ∧ iconOpen
      (IndexJs.page (IndexJs.clicks [2; 0; 2; 2] (IndexJs.boot IndexJs.sampleDoc)))
      3 = true.
Proof.
  split; [reflexivity|]. split; [reflexivity|]. split; [reflexivity|].
  rewrite (index_js_icon_follows_panel IndexJs.sampleDoc [2; 0; 2; 2] 4 3);
    reflexivity.
Defined.

(** ** Mutual exclusion of the icons *)

(** X14. The icons are mutually exclusive as the panels are, on any
    markup: in a document whose icons all start closed, after every click
    of every click sequence at most one element of class
    [dropdown__expand] bears the open token. *)
Theorem icon_mutual_exclusion (els : list Element) (targets : list Node)
    (n m : Node) :
  iconsClosed els = true →
  n ∈ select ".dropdown__expand" els → m ∈ select ".dropdown__expand" els →
  iconOpen (clicks targets (boot els)) n = true →
  iconOpen (clicks targets (boot els)) m = true →
  n = m.
Proof.
  intros Hclosed Hn Hm.
  apply (clicks_invariant
           (λ q, iconOpen q n = true → iconOpen q m = true → n = m)).
  - intros q t l _ Inv Hl.
    destruct (boot_listeners els t l Hl) as [[-> _]|[-> _]]; simpl.
    + by rewrite !hamburgerClick_iconOpen.
    + rewrite !dropdownClick_iconOpen.
      destruct (panelOf q t); [|exact Inv].
      destruct (controlsOf q t); [|exact Inv].
      rewrite !(bool_decide_eq_true_2 (_ ∈ _)) by done.
      repeat case_bool_decide; try done. congruence.
  - unfold iconOpen. rewrite boot_elements.
    apply (forallb_elem_of _ _ _ Hclosed) in Hn.
    by destruct (hasToken els n "dropdown__expand--open").
Qed.

Lemma icon_mutual_exclusion_witness :
  iconsClosed sampleDoc = true
  ∧ iconOpen (clicks [2; 5; 8] (boot sampleDoc)) 9 = true
  ∧ iconOpen (clicks [2; 5; 8] (boot sampleDoc)) 3 = false
  ∧ (iconOpen (clicks [2; 5; 8] (boot sampleDoc)) 9 = true →
     iconOpen (clicks [2; 5; 8] (boot sampleDoc)) 9 = true → 9 = 9).
Proof.
  split; [reflexivity|]. split; [reflexivity|]. split; [reflexivity|].
  apply (icon_mutual_exclusion sampleDoc [2; 5; 8] 9 9).
  - reflexivity.
  - by apply (bool_decide_unpack _).
  - by apply (bool_decide_unpack _).
Defined.
